(** * NetCepter Pro: the interception engine of [background.js]

    A shallow embedding of the background service worker
    ([src/background.js]) and the properties of its attach/detach
    lifecycle, its paused-exchange store and the resume commands it
    composes.

    Conventions of the model.
    - A JavaScript string is the list of its UTF-16 code units.
    - The three [Map]s of the worker ([attachedTabs], [pendingRequests],
      [requestData]) are finite maps; a header mapping (a plain JS object
      used as a dictionary) is a finite map as well, so the order in which
      [Object.entries] lists it is not tracked.
    - A field that may be [undefined] is an [option].
    - Every handler runs to completion: an [await] is resolved in line with
      the outcome the transport gives to that call.
    - What a handler does to the outside world is recorded as a trace of
      events: messages posted on a port, calls made on the debugger
      transport, console output. *)

From Stdlib Require Import NArith ZArith String Ascii.
From stdpp Require Import base option list gmap strings fin_maps.

Abbreviation jsstring := (list N).

(** The JS string of an ASCII literal. *)
Definition js (s : string) : jsstring :=
  N_of_ascii <$> list_ascii_of_string s.
Arguments js : simpl never.

(** ** Built-ins of the platform used by the worker *)

Module Builtins.

Local Open Scope N_scope.

Definition in_range (lo hi c : N) : bool := (lo <=? c) && (c <=? hi).

(** [WhiteSpace] and [LineTerminator] code units, as [String.prototype.trim]
    strips them. *)
Definition is_space (c : N) : bool :=
  in_range 9 13 c || (c =? 32) || (c =? 160) || (c =? 5760)
  || in_range 8192 8202 c || (c =? 8232) || (c =? 8233) || (c =? 8239)
  || (c =? 8287) || (c =? 12288) || (c =? 65279).

Fixpoint trimStart (s : jsstring) : jsstring :=
  match s with
  | c :: t => if is_space c then trimStart t else s
  | [] => []
  end.

Definition trim (s : jsstring) : jsstring :=
  rev (trimStart (rev (trimStart s))).

Fixpoint startsWith (p s : jsstring) : bool :=
  match p, s with
  | [], _ => true
  | a :: p', b :: s' => (a =? b) && startsWith p' s'
  | _ :: _, [] => false
  end.

(** [s.includes(p)] *)
Fixpoint includes (p s : jsstring) : bool :=
  startsWith p s ||
  match s with
  | [] => false
  | _ :: t => includes p t
  end.

(** *** [encodeURIComponent] *)

Definition is_alnum (c : N) : bool :=
  in_range 65 90 c || in_range 97 122 c || in_range 48 57 c.

(** uriUnreserved: letters, digits and [- _ . ! ~ * ' ( )]. *)
Definition is_unreserved (c : N) : bool :=
  is_alnum c || (c =? 45) || (c =? 95) || (c =? 46) || (c =? 33)
  || (c =? 126) || (c =? 42) || (c =? 39) || (c =? 40) || (c =? 41).

Definition is_high_surrogate (c : N) : bool := in_range 55296 56319 c.
Definition is_low_surrogate (c : N) : bool := in_range 56320 57343 c.

Definition utf8 (cp : N) : list N :=
  if cp <? 128 then [cp]
  else if cp <? 2048 then
    [N.lor 192 (N.shiftr cp 6); N.lor 128 (N.land cp 63)]
  else if cp <? 65536 then
    [N.lor 224 (N.shiftr cp 12); N.lor 128 (N.land (N.shiftr cp 6) 63);
     N.lor 128 (N.land cp 63)]
  else
    [N.lor 240 (N.shiftr cp 18); N.lor 128 (N.land (N.shiftr cp 12) 63);
     N.lor 128 (N.land (N.shiftr cp 6) 63); N.lor 128 (N.land cp 63)].

Definition hex_digit (d : N) : N := if d <? 10 then 48 + d else 55 + d.

Definition percent (octet : N) : jsstring :=
  [37; hex_digit (octet / 16); hex_digit (octet mod 16)].

Definition percent_utf8 (cp : N) : jsstring := utf8 cp ≫= percent.

(** [None] is the [URIError] thrown on an unpaired surrogate. *)
Fixpoint encodeURIComponent (s : jsstring) : option jsstring :=
  match s with
  | [] => Some []
  | c :: t =>
    if is_unreserved c then (c ::.) <$> encodeURIComponent t
    else if is_low_surrogate c then None
    else if is_high_surrogate c then
      match t with
      | d :: t' =>
        if is_low_surrogate d then
          (percent_utf8 ((c - 55296) * 1024 + (d - 56320) + 65536) ++.)
            <$> encodeURIComponent t'
        else None
      | [] => None
      end
    else (percent_utf8 c ++.) <$> encodeURIComponent t
  end.

(** *** [unescape] *)

Definition hex_value (c : N) : option N :=
  if in_range 48 57 c then Some (c - 48)
  else if in_range 65 70 c then Some (c - 55)
  else if in_range 97 102 c then Some (c - 87)
  else None.

Fixpoint hex_number (acc : N) (ds : jsstring) : option N :=
  match ds with
  | [] => Some acc
  | d :: ds' => v ← hex_value d; hex_number (16 * acc + v) ds'
  end.

(** The escape sequence at the head of [t], the text after a [%]:
    its code unit and the number of code units it spans. *)
Definition escape_at (t : jsstring) : option (N * nat) :=
  match t with
  | 117 :: a :: b :: c :: d :: _ =>
    match hex_number 0 [a; b; c; d] with
    | Some v => Some (v, 5%nat)
    | None =>
      match hex_number 0 [117; a] with
      | Some v => Some (v, 2%nat)
      | None => None
      end
    end
  | a :: b :: _ =>
    match hex_number 0 [a; b] with
    | Some v => Some (v, 2%nat)
    | None => None
    end
  | _ => None
  end.

(** [skip] is the number of code units already consumed by an escape
    sequence (the [k := k + 5] and [k := k + 2] of the algorithm). *)
Fixpoint unescape_from (skip : nat) (s : jsstring) : jsstring :=
  match s with
  | [] => []
  | c :: t =>
    match skip with
    | S k => unescape_from k t
    | O =>
      if c =? 37 then
        match escape_at t with
        | Some (v, n) => v :: unescape_from n t
        | None => c :: unescape_from 0 t
        end
      else c :: unescape_from 0 t
    end
  end.

Definition unescape (s : jsstring) : jsstring := unescape_from 0 s.

(** *** [btoa] *)

Definition b64_char (i : N) : N :=
  if i <? 26 then 65 + i
  else if i <? 52 then 97 + (i - 26)
  else if i <? 62 then 48 + (i - 52)
  else if i =? 62 then 43
  else 47.

Fixpoint base64 (bs : list N) : jsstring :=
  match bs with
  | a :: b :: c :: t =>
    b64_char (a / 4)
      :: b64_char ((a mod 4) * 16 + b / 16)
      :: b64_char ((b mod 16) * 4 + c / 64)
      :: b64_char (c mod 64)
      :: base64 t
  | [a; b] =>
    [b64_char (a / 4); b64_char ((a mod 4) * 16 + b / 16);
     b64_char ((b mod 16) * 4); 61]
  | [a] => [b64_char (a / 4); b64_char ((a mod 4) * 16); 61; 61]
  | [] => []
  end.

(** [None] is the [InvalidCharacterError] thrown when a code unit does not
    fit in one byte. *)
Definition btoa (s : jsstring) : option jsstring :=
  if forallb (fun c => c <=? 255) s then Some (base64 s) else None.

End Builtins.

Import Builtins.

(** ** Data model *)

(** A thrown value; only its [message] is ever inspected. *)
Record error := Error { message : option jsstring }.

Definition URIError : error := Error (Some (js "URI malformed")).
Definition InvalidCharacterError : error :=
  Error (Some (js "The string to be encoded contains characters outside of the Latin1 range.")).

(** [e.message && e.message.includes('disconnected')] *)
Definition mentions_disconnected (e : error) : bool :=
  match message e with
  | Some m => includes (js "disconnected") m
  | None => false
  end.

(** [if (s)] on a string that may be undefined. *)
Definition truthy_string (s : option jsstring) : bool :=
  match s with
  | Some (_ :: _) => true
  | _ => false
  end.

(** [if (n)] on an integer that may be undefined. *)
Definition truthy_number (n : option Z) : bool :=
  match n with
  | Some c => negb (c =? 0)%Z
  | None => false
  end.

Module Header.
(** A [{name, value}] entry; either field may be missing. *)
Record t := make { name : option jsstring; value : option jsstring }.
Definition entry (n v : jsstring) : t := make (Some n) (Some v).
End Header.

(** An array of header entries as it comes over the wire: an element that
    is not an object ([null], a string, ...) is [None]. *)
Abbreviation header_array := (list (option Header.t)).

(** A header mapping [{key: value}]; a key may be bound to [undefined]. *)
Abbreviation header_object := (gmap jsstring (option jsstring)).

(** The shapes a [headers] value is tested for. *)
Inductive jsheaders :=
  | HeadersArray (l : header_array)
  | HeadersObject (o : header_object)
  | HeadersOther.   (* null, a string, a number, ... *)

Module Request.
Record t := make {
  url : jsstring;
  method : jsstring;
  headers : option jsheaders;
  postData : option jsstring
}.
End Request.

(** The parameters of a [Fetch.requestPaused] event. *)
Module Paused.
Record t := make {
  requestId : jsstring;
  request : Request.t;
  responseStatusCode : option Z;
  responseHeaders : option header_array;
  networkId : option jsstring;
  resourceType : option jsstring
}.
End Paused.

(** The parameters of a [Network.responseReceived] event. *)
Module Received.
Record meta := make_meta {
  status : Z;
  statusText : jsstring;
  headers : header_object
}.
Record t := make { requestId : jsstring; response : meta }.
End Received.

Module RequestIntercepted.
Record t := make {
  requestId : jsstring;
  networkId : option jsstring;
  url : jsstring;
  method : jsstring;
  headers : header_object;
  headersArray : header_array;
  postData : option jsstring;
  resourceType : jsstring;
  timestamp : Z
}.
End RequestIntercepted.

Module ResponseIntercepted.
Record t := make {
  requestId : jsstring;
  networkId : option jsstring;
  url : jsstring;
  method : jsstring;
  status : Z;
  statusText : jsstring;
  headers : header_array;
  resourceType : jsstring;
  timestamp : Z
}.
End ResponseIntercepted.

(** Messages posted to the panel. *)
Inductive panel_message :=
  | DEBUGGER_ATTACHED (tabId : Z)
  | DEBUGGER_ERROR (error : option jsstring)
  | DEBUGGER_DETACHED (reason : jsstring)
  | REQUEST_INTERCEPTED (data : RequestIntercepted.t)
  | RESPONSE_INTERCEPTED (data : ResponseIntercepted.t).

(** The [modifications] of a [CONTINUE_REQUEST] message. *)
Module RequestPatch.
Record t := make {
  url : option jsstring;
  method : option jsstring;
  headers : option jsheaders;
  postData : option jsstring
}.
Definition empty : t := make None None None None.
End RequestPatch.

(** The [modifications] of a [CONTINUE_RESPONSE] message. *)
Module ResponsePatch.
Record t := make {
  responseCode : option Z;
  responseHeaders : option header_array;
  body : option jsstring
}.
Definition empty : t := make None None None.
End ResponsePatch.

(** The parameter object of a resume command; a field that the object does
    not have is [None]. *)
Module Command.
Record t := make {
  requestId : jsstring;
  url : option jsstring;
  method : option jsstring;
  headers : option header_array;
  postData : option jsstring;
  responseCode : option Z;
  responseHeaders : option header_array;
  body : option jsstring;
  errorReason : option jsstring
}.

(** [{ requestId: requestId }] *)
Definition of_id (id : jsstring) : t :=
  make id None None None None None None None None.

Definition set_url (v : jsstring) (c : t) : t :=
  make (requestId c) (Some v) (method c) (headers c) (postData c)
       (responseCode c) (responseHeaders c) (body c) (errorReason c).
Definition set_method (v : jsstring) (c : t) : t :=
  make (requestId c) (url c) (Some v) (headers c) (postData c)
       (responseCode c) (responseHeaders c) (body c) (errorReason c).
Definition set_headers (v : header_array) (c : t) : t :=
  make (requestId c) (url c) (method c) (Some v) (postData c)
       (responseCode c) (responseHeaders c) (body c) (errorReason c).
Definition set_postData (v : jsstring) (c : t) : t :=
  make (requestId c) (url c) (method c) (headers c) (Some v)
       (responseCode c) (responseHeaders c) (body c) (errorReason c).
Definition set_responseCode (v : Z) (c : t) : t :=
  make (requestId c) (url c) (method c) (headers c) (postData c)
       (Some v) (responseHeaders c) (body c) (errorReason c).
Definition set_responseHeaders (v : header_array) (c : t) : t :=
  make (requestId c) (url c) (method c) (headers c) (postData c)
       (responseCode c) (Some v) (body c) (errorReason c).
Definition set_body (v : jsstring) (c : t) : t :=
  make (requestId c) (url c) (method c) (headers c) (postData c)
       (responseCode c) (responseHeaders c) (Some v) (errorReason c).
Definition set_errorReason (v : jsstring) (c : t) : t :=
  make (requestId c) (url c) (method c) (headers c) (postData c)
       (responseCode c) (responseHeaders c) (body c) (Some v).
End Command.

(** ** The debugger transport and the ports *)

Abbreviation port := nat.

(** What [chrome.debugger.sendCommand] is given besides the method. *)
Inductive payload :=
  | NoParams
  | Patterns (patterns : list (string * string))   (* urlPattern, requestStage *)
  | Params (c : Command.t).

Inductive call :=
  | Attach (version : string)
  | Detach
  | SendCommand (method : string) (p : payload).

Inductive level := error_level | warn_level.

Inductive event :=
  | Posted (p : port) (m : panel_message)     (* port.postMessage(m) was called *)
  | Called (tabId : Z) (c : call)       (* chrome.debugger.* was called *)
  | Logged (l : level) (text : string). (* console.error / console.warn *)

(** The outside world of one handler run: what [postMessage] does on each
    port ([None]: the message is delivered; [Some e]: it throws [e]), what
    the transport answers to each call ([None]: the promise resolves;
    [Some e]: it rejects with [e]) and the clock. *)
Record environment := {
  ports : port → option error;
  transport : Z → call → option error;
  now : Z
}.

(** ** State of the worker *)

Module TabData.
Record t := make { port : port; target : Z }.
End TabData.

Module Pending.
Record t := make { tabId : Z; params : Paused.t }.
End Pending.

(** An entry of [requestData]: the message built at the request stage and
    the [response] property attached to it later. *)
Module Snapshot.
Record t := make {
  data : RequestIntercepted.t;
  response : option Received.meta
}.
End Snapshot.

Record worker := {
  attachedTabs : gmap Z TabData.t;
  pendingRequests : gmap jsstring Pending.t;
  requestData : gmap jsstring Snapshot.t
}.

Definition initial : worker :=
  {| attachedTabs := ∅; pendingRequests := ∅; requestData := ∅ |}.

Definition with_attachedTabs (f : gmap Z TabData.t → gmap Z TabData.t)
    (w : worker) : worker :=
  {| attachedTabs := f (attachedTabs w);
     pendingRequests := pendingRequests w;
     requestData := requestData w |}.

Definition with_pendingRequests
    (f : gmap jsstring Pending.t → gmap jsstring Pending.t)
    (w : worker) : worker :=
  {| attachedTabs := attachedTabs w;
     pendingRequests := f (pendingRequests w);
     requestData := requestData w |}.

Definition with_requestData
    (f : gmap jsstring Snapshot.t → gmap jsstring Snapshot.t)
    (w : worker) : worker :=
  {| attachedTabs := attachedTabs w;
     pendingRequests := pendingRequests w;
     requestData := f (requestData w) |}.

(** ** A monad for handlers: state, exceptions and a trace *)

Inductive result (A : Type) :=
  | Returns (a : A)
  | Throws (e : error).
Arguments Returns {A} a.
Arguments Throws {A} e.

Record run (A : Type) := Run {
  outcome : result A;
  final : worker;
  trace : list event
}.
Arguments Run {A} outcome final trace.
Arguments outcome {A} r.
Arguments final {A} r.
Arguments trace {A} r.

Definition M (A : Type) : Type := worker → run A.

Definition ret {A} (a : A) : M A := fun w => Run (Returns a) w [].

Definition throw {A} (e : error) : M A := fun w => Run (Throws e) w [].

Definition bind {A B} (m : M A) (k : A → M B) : M B := fun w =>
  match m w with
  | Run (Returns a) w1 t1 =>
    match k a w1 with
    | Run o w2 t2 => Run o w2 (t1 ++ t2)
    end
  | Run (Throws e) w1 t1 => Run (Throws e) w1 t1
  end.

(** [try { m } catch (e) { h e }] *)
Definition try_catch {A} (m : M A) (h : error → M A) : M A := fun w =>
  match m w with
  | Run (Returns a) w1 t1 => Run (Returns a) w1 t1
  | Run (Throws e) w1 t1 =>
    match h e w1 with
    | Run o w2 t2 => Run o w2 (t1 ++ t2)
    end
  end.

Definition get : M worker := fun w => Run (Returns w) w [].
Definition modify (f : worker → worker) : M unit :=
  fun w => Run (Returns tt) (f w) [].
Definition emit (e : event) : M unit := fun w => Run (Returns tt) w [e].

(** An optional value whose absence is the exception [e]. *)
Definition or_throw {A} (e : error) (o : option A) : M A :=
  match o with
  | Some a => ret a
  | None => throw e
  end.

Declare Scope js_scope.
Delimit Scope js_scope with js.
Notation "'let*' x := m 'in' k" := (bind m (fun x => k))
  (at level 10, x pattern, m at level 100, k at level 200) : js_scope.
Notation "m ;;; k" := (bind m (fun _ => k))
  (at level 100, k at level 200, right associativity) : js_scope.
Open Scope js_scope.

(** ** The worker's functions *)

Definition statusTexts : list (Z * string) :=
  [ (200, "OK"); (201, "Created"); (204, "No Content");
    (301, "Moved Permanently"); (302, "Found"); (304, "Not Modified");
    (400, "Bad Request"); (401, "Unauthorized"); (403, "Forbidden");
    (404, "Not Found"); (500, "Internal Server Error");
    (502, "Bad Gateway"); (503, "Service Unavailable") ]%Z.

Fixpoint table_lookup (code : Z) (table : list (Z * string)) : option string :=
  match table with
  | [] => None
  | (k, text) :: rest => if (k =? code)%Z then Some text else table_lookup code rest
  end.

(** [statusTexts[code] || 'Unknown'] *)
Definition getStatusText (code : Z) : jsstring :=
  match table_lookup code statusTexts with
  | Some text => js text
  | None => js "Unknown"
  end.

(** [o[k] = v] on a plain object: the key [__proto__] reaches the setter
    inherited from [Object.prototype], which creates no property. *)
Definition assign (k : jsstring) (v : option jsstring) (o : header_object)
    : header_object :=
  if decide (k = js "__proto__") then o else <[k := v]> o.

(** The guard of the [forEach] at the request stage:
    [header && typeof header === 'object' && header.name
     && header.value !== undefined]. *)
Definition well_formed_entry (h : option Header.t) : bool :=
  match h with
  | Some h => truthy_string (Header.name h) && bool_decide (is_Some (Header.value h))
  | None => false
  end.

Definition object_of_array (l : header_array) : header_object :=
  foldl (fun o h =>
           if well_formed_entry h then
             match h with
             | Some {| Header.name := Some n; Header.value := v |} => assign n v o
             | _ => o
             end
           else o) ∅ l.

(** [Object.entries(o).map(([name, value]) => ({ name, value }))] *)
Definition array_of_object (o : header_object) : header_array :=
  (fun kv => Some (Header.make (Some kv.1) kv.2)) <$> map_to_list o.

(** The header normalization of [handleRequestPaused] (the block that
    fills [headersObj] and [headersArray]); no step of it can throw on the
    values of this model, so its [catch] is never entered. *)
Definition normalize_headers (h : option jsheaders)
    : header_object * header_array :=
  match h with
  | Some (HeadersArray l) => (object_of_array l, l)
  | Some (HeadersObject o) => (o, array_of_object o)
  | Some HeadersOther | None => (∅, [])
  end.

(** [resourceType || 'other'] *)
Definition resource_type (r : option jsstring) : jsstring :=
  match r with
  | Some (c :: t) => c :: t
  | _ => js "other"
  end.

(** The [filter] of [continueRequest] on a header array:
    [h && h.name && h.value !== undefined]. *)
Definition keep_header (h : option Header.t) : bool :=
  match h with
  | Some h => truthy_string (Header.name h) && bool_decide (is_Some (Header.value h))
  | None => false
  end.

(** A header mapping as the array [Fetch.continueRequest] wants. *)
Definition entries_to_array (o : header_object) : header_array :=
  map_to_list o ≫= fun kv =>
    match kv with
    | (c :: n, Some v) => [Some (Header.entry (trim (c :: n)) (trim v))]
    | _ => []
    end.

Definition request_headers (h : jsheaders) : header_array :=
  match h with
  | HeadersArray l => List.filter keep_header l
  | HeadersObject o => entries_to_array o
  | HeadersOther => []
  end.

(** [btoa(unescape(encodeURIComponent(s)))] *)
Definition btoa_utf8 (s : jsstring) : M jsstring :=
  let* e := or_throw URIError (encodeURIComponent s) in
  or_throw InvalidCharacterError (btoa (unescape e)).

(** [btoa(s)] *)
Definition btoa_direct (s : jsstring) : M jsstring :=
  or_throw InvalidCharacterError (btoa s).

Section Handlers.

Variable env : environment.

Definition console_error (text : string) : M unit :=
  emit (Logged error_level text).
Definition console_warn (text : string) : M unit :=
  emit (Logged warn_level text).

(** [port.postMessage(m)] *)
Definition postMessage (p : port) (m : panel_message) : M unit :=
  emit (Posted p m) ;;;
  match ports env p with
  | None => ret tt
  | Some e => throw e
  end.

(** [await chrome.debugger.attach/detach/sendCommand(target, ...)] *)
Definition debugger (tabId : Z) (c : call) : M unit :=
  emit (Called tabId c) ;;;
  match transport env tabId c with
  | None => ret tt
  | Some e => throw e
  end.

Definition fetch_patterns : list (string * string) :=
  [("*", "Request"); ("*", "Response")]%string.

Definition attachDebugger (tabId : Z) (port : port) : M unit :=
  try_catch
    (let* w := get in
     if bool_decide (is_Some (attachedTabs w !! tabId)) then
       try_catch
         (postMessage port (DEBUGGER_ATTACHED tabId))
         (fun _ => modify (with_attachedTabs (delete tabId)))
     else
       debugger tabId (Attach "1.3") ;;;
       debugger tabId (SendCommand "Network.enable" NoParams) ;;;
       debugger tabId (SendCommand "Fetch.enable" (Patterns fetch_patterns)) ;;;
       modify (with_attachedTabs (insert tabId (TabData.make port tabId))) ;;;
       try_catch
         (postMessage port (DEBUGGER_ATTACHED tabId))
         (fun e =>
            if mentions_disconnected e then
              modify (with_attachedTabs (delete tabId)) ;;;
              debugger tabId Detach
            else ret tt))
    (fun error =>
       console_error "Failed to attach debugger:" ;;;
       try_catch
         (postMessage port (DEBUGGER_ERROR (message error)))
         (fun _ => ret tt)).

Definition clear_exchanges (w : worker) : worker :=
  with_requestData (fun _ => ∅) (with_pendingRequests (fun _ => ∅) w).

Definition detachDebugger (tabId : Z) : M unit :=
  try_catch
    (let* w := get in
     if negb (bool_decide (is_Some (attachedTabs w !! tabId))) then ret tt
     else
       debugger tabId Detach ;;;
       modify (with_attachedTabs (delete tabId)) ;;;
       modify clear_exchanges)
    (fun _ => console_error "Failed to detach debugger:").

Definition handleRequestPaused (tabId : Z) (params : Paused.t)
    (port : option port) : M unit :=
  let requestId := Paused.requestId params in
  let request := Paused.request params in
  modify (with_pendingRequests (insert requestId (Pending.make tabId params))) ;;;
  match port with
  | None => console_error "Port is not available for tab"
  | Some port =>
    try_catch
      (if truthy_number (Paused.responseStatusCode params) then
         let responseStatusCode := default 0%Z (Paused.responseStatusCode params) in
         postMessage port (RESPONSE_INTERCEPTED
           (ResponseIntercepted.make
              requestId
              (Paused.networkId params)
              (Request.url request)
              (Request.method request)
              responseStatusCode
              (getStatusText responseStatusCode)
              (default [] (Paused.responseHeaders params))
              (resource_type (Paused.resourceType params))
              (now env)))
       else
         let '(headersObj, headersArray) :=
           normalize_headers (Request.headers request) in
         let data :=
           RequestIntercepted.make
             requestId
             (Paused.networkId params)
             (Request.url request)
             (Request.method request)
             headersObj
             headersArray
             (Request.postData request)
             (resource_type (Paused.resourceType params))
             (now env) in
         modify (with_requestData (insert requestId (Snapshot.make data None))) ;;;
         postMessage port (REQUEST_INTERCEPTED data))
      (fun error =>
         if mentions_disconnected error then
           console_error "Port disconnected, cleaning up tab" ;;;
           let* w := get in
           if bool_decide (is_Some (attachedTabs w !! tabId)) then
             modify (with_attachedTabs (delete tabId))
           else ret tt
         else console_error "Error sending message to port:")
  end.

Definition set_response (r : Received.meta) (s : Snapshot.t) : Snapshot.t :=
  Snapshot.make (Snapshot.data s) (Some r).

Definition handleResponseReceived (tabId : Z) (params : Received.t)
    (port : port) : M unit :=
  let requestId := Received.requestId params in
  let response := Received.response params in
  let* w := get in
  if bool_decide (is_Some (requestData w !! requestId)) then
    modify (with_requestData (alter (set_response
      (Received.make_meta (Received.status response)
                          (Received.statusText response)
                          (Received.headers response))) requestId))
  else ret tt.

Definition continueRequest (requestId : jsstring)
    (modifications : option RequestPatch.t) : M unit :=
  let* w := get in
  match pendingRequests w !! requestId with
  | None => console_error "No pending request found:"
  | Some pending =>
    let tabId := Pending.tabId pending in
    try_catch
      (let command := Command.of_id requestId in
       let* command :=
         match modifications with
         | None => ret command
         | Some modifications =>
           let command :=
             if truthy_string (RequestPatch.url modifications)
             then Command.set_url (default [] (RequestPatch.url modifications)) command
             else command in
           let command :=
             if truthy_string (RequestPatch.method modifications)
             then Command.set_method (default [] (RequestPatch.method modifications)) command
             else command in
           let command :=
             match RequestPatch.headers modifications with
             | Some h => Command.set_headers (request_headers h) command
             | None => command
             end in
           match RequestPatch.postData modifications with
           | Some postData =>
             try_catch
               (let* b := btoa_utf8 postData in
                ret (Command.set_postData b command))
               (fun _ =>
                  console_error "Failed to encode postData:" ;;;
                  try_catch
                    (let* b := btoa_direct postData in
                     ret (Command.set_postData b command))
                    (fun _ =>
                       console_error "Failed to base64 encode postData:" ;;;
                       console_warn "Skipping postData due to encoding error" ;;;
                       ret command))
           | None => ret command
           end
         end in
       debugger tabId (SendCommand "Fetch.continueRequest" (Params command)) ;;;
       modify (with_pendingRequests (delete requestId)))
      (fun _ => console_error "Failed to continue request:")
  end.

Definition continueResponse (requestId : jsstring)
    (modifications : option ResponsePatch.t) : M unit :=
  let* w := get in
  match pendingRequests w !! requestId with
  | None => console_error "No pending response found:"
  | Some pending =>
    let tabId := Pending.tabId pending in
    let params := Pending.params pending in
    try_catch
      (let command :=
         Command.set_responseHeaders
           (default [] (Paused.responseHeaders params))
           (Command.set_responseCode
              (if truthy_number (Paused.responseStatusCode params)
               then default 0%Z (Paused.responseStatusCode params)
               else 200%Z)
              (Command.of_id requestId)) in
       let* command :=
         match modifications with
         | None => ret command
         | Some modifications =>
           let command :=
             if truthy_number (ResponsePatch.responseCode modifications)
             then Command.set_responseCode
                    (default 0%Z (ResponsePatch.responseCode modifications)) command
             else command in
           let command :=
             match ResponsePatch.responseHeaders modifications with
             | Some h => Command.set_responseHeaders h command
             | None => command
             end in
           match ResponsePatch.body modifications with
           | Some body =>
             try_catch
               (let* b := btoa_utf8 body in
                ret (Command.set_body b command))
               (fun _ =>
                  console_error "Failed to encode body:" ;;;
                  let* b := btoa_direct body in
                  ret (Command.set_body b command))
           | None => ret command
           end
         end in
       debugger tabId (SendCommand "Fetch.fulfillRequest" (Params command)) ;;;
       modify (with_pendingRequests (delete requestId)))
      (fun _ => console_error "Failed to continue response:")
  end.

Definition blockRequest (requestId : jsstring) : M unit :=
  let* w := get in
  match pendingRequests w !! requestId with
  | None => console_error "No pending request found:"
  | Some pending =>
    let tabId := Pending.tabId pending in
    try_catch
      (debugger tabId (SendCommand "Fetch.failRequest"
         (Params (Command.set_errorReason (js "BlockedByClient")
                    (Command.of_id requestId)))) ;;;
       modify (with_pendingRequests (delete requestId)))
      (fun _ => console_error "Failed to block request:")
  end.

(** Events of the debugging protocol, as [chrome.debugger.onEvent] hands
    them over. *)
Inductive protocol_event :=
  | Fetch_requestPaused (params : Paused.t)
  | Network_responseReceived (params : Received.t)
  | other_event (method : string).

(** The [chrome.debugger.onEvent] listener. *)
Definition onEvent (tabId : Z) (ev : protocol_event) : M unit :=
  let* w := get in
  match attachedTabs w !! tabId with
  | None => ret tt
  | Some tabData =>
    match ev with
    | Fetch_requestPaused params =>
      handleRequestPaused tabId params (Some (TabData.port tabData))
    | Network_responseReceived params =>
      handleResponseReceived tabId params (TabData.port tabData)
    | other_event _ => ret tt
    end
  end.

(** The [chrome.debugger.onDetach] listener. *)
Definition onDetach (tabId : Z) (reason : jsstring) : M unit :=
  let* w := get in
  match attachedTabs w !! tabId with
  | Some tabData =>
    try_catch
      (postMessage (TabData.port tabData) (DEBUGGER_DETACHED reason))
      (fun _ => ret tt) ;;;
    modify (with_attachedTabs (delete tabId))
  | None => ret tt
  end ;;;
  modify clear_exchanges.

End Handlers.

(** ** Observations on a run *)

(** The messages handed to [postMessage], in order. *)
Definition posted (tr : list event) : list panel_message :=
  tr ≫= fun e => match e with Posted _ m => [m] | _ => [] end.

(** The calls made on the debugger transport, in order. *)
Definition calls (tr : list event) : list (Z * call) :=
  tr ≫= fun e => match e with Called t c => [(t, c)] | _ => [] end.

(** The resume commands among them: target, method and parameter object. *)
Definition commands (tr : list event) : list (Z * string * Command.t) :=
  calls tr ≫= fun tc =>
    match tc with
    | (t, SendCommand m (Params c)) => [(t, m, c)]
    | _ => []
    end.

(** The body encoding that both resume commands attempt: the UTF-8 path,
    then the direct one; [None] when both throw. *)
Definition encode_body (s : jsstring) : option jsstring :=
  match encodeURIComponent s ≫= (fun e => btoa (unescape e)) with
  | Some b => Some b
  | None => btoa s
  end.

(** The parameter object that [continueRequest] composes: its steps
    without the logging, the two encoding attempts folded into
    [encode_body]. *)
Definition continue_command (id : jsstring) (mods : option RequestPatch.t)
    : Command.t :=
  let command := Command.of_id id in
  match mods with
  | None => command
  | Some p =>
    let command :=
      if truthy_string (RequestPatch.url p)
      then Command.set_url (default [] (RequestPatch.url p)) command
      else command in
    let command :=
      if truthy_string (RequestPatch.method p)
      then Command.set_method (default [] (RequestPatch.method p)) command
      else command in
    let command :=
      match RequestPatch.headers p with
      | Some h => Command.set_headers (request_headers h) command
      | None => command
      end in
    match RequestPatch.postData p ≫= encode_body with
    | Some b => Command.set_postData b command
    | None => command
    end
  end.

(** The parameter object that [continueResponse] composes when no
    encoding attempt is left uncaught; [None] when the body cannot be
    encoded. *)
Definition fulfill_command (id : jsstring) (params : Paused.t)
    (mods : option ResponsePatch.t) : option Command.t :=
  let command :=
    Command.set_responseHeaders
      (default [] (Paused.responseHeaders params))
      (Command.set_responseCode
         (if truthy_number (Paused.responseStatusCode params)
          then default 0%Z (Paused.responseStatusCode params)
          else 200%Z)
         (Command.of_id id)) in
  match mods with
  | None => Some command
  | Some p =>
    let command :=
      if truthy_number (ResponsePatch.responseCode p)
      then Command.set_responseCode
             (default 0%Z (ResponsePatch.responseCode p)) command
      else command in
    let command :=
      match ResponsePatch.responseHeaders p with
      | Some h => Command.set_responseHeaders h command
      | None => command
      end in
    match ResponsePatch.body p with
    | Some body => (fun b => Command.set_body b command) <$> encode_body body
    | None => Some command
    end
  end.

(** [{ requestId: requestId, errorReason: 'BlockedByClient' }] *)
Definition fail_command (id : jsstring) : Command.t :=
  Command.set_errorReason (js "BlockedByClient") (Command.of_id id).

(** The commands that resolve a paused exchange. *)
Inductive resume :=
  | CONTINUE_REQUEST (requestId : jsstring) (modifications : option RequestPatch.t)
  | CONTINUE_RESPONSE (requestId : jsstring) (modifications : option ResponsePatch.t)
  | BLOCK_REQUEST (requestId : jsstring).

Definition exchange (c : resume) : jsstring :=
  match c with
  | CONTINUE_REQUEST id _ | CONTINUE_RESPONSE id _ | BLOCK_REQUEST id => id
  end.

(** The cases of the port's message listener for them. *)
Definition onMessage (env : environment) (c : resume) : M unit :=
  match c with
  | CONTINUE_REQUEST id m => continueRequest env id m
  | CONTINUE_RESPONSE id m => continueResponse env id m
  | BLOCK_REQUEST id => blockRequest env id
  end.

(** Everything that reaches the worker and can touch its maps: the
    messages of the panel and the two listeners of the debugger.  (A
    [GET_RESPONSE_BODY] message only reads from the transport and is left
    out.) *)
Inductive operation :=
  | ATTACH_DEBUGGER (tabId : Z) (port : port)
  | DETACH_DEBUGGER (tabId : Z)
  | RESUME (c : resume)
  | PROTOCOL_EVENT (tabId : Z) (ev : protocol_event)
  | DEBUGGER_DETACH (tabId : Z) (reason : jsstring).

Definition perform (env : environment) (op : operation) : M unit :=
  match op with
  | ATTACH_DEBUGGER tabId port => attachDebugger env tabId port
  | DETACH_DEBUGGER tabId => detachDebugger env tabId
  | RESUME c => onMessage env c
  | PROTOCOL_EVENT tabId ev => onEvent env tabId ev
  | DEBUGGER_DETACH tabId reason => onDetach env tabId reason
  end.


(** A transport call that resumes exchange [id]. *)
Definition resumes (id : jsstring) (c : call) : Prop :=
  ∃ m p, c = SendCommand m (Params p) ∧ Command.requestId p = id ∧
    (m = "Fetch.continueRequest" ∨ m = "Fetch.fulfillRequest"
     ∨ m = "Fetch.failRequest")%string.

(** The stage a posted message reports, if it is an interception. *)
Inductive stage := request_stage | response_stage.

Definition classify (m : panel_message) : option stage :=
  match m with
  | REQUEST_INTERCEPTED _ => Some request_stage
  | RESPONSE_INTERCEPTED _ => Some response_stage
  | _ => None
  end.

(** The state a teardown of the session of [tabId] leaves. *)
Definition torn_down (tabId : Z) (w : worker) : worker :=
  {| attachedTabs := delete tabId (attachedTabs w);
     pendingRequests := ∅;
     requestData := ∅ |}.

(** Mapping to list to mapping, as the two branches of the header
    normalization do it. *)
Definition headers_round_trip (o : header_object) : header_object :=
  (normalize_headers (Some (HeadersArray
     (normalize_headers (Some (HeadersObject o))).2))).1.

(** ** Sample inputs *)

(** An outside world in which every port delivers and every transport call
    succeeds. *)
Definition quiet : environment :=
  {| ports := fun _ => None; transport := fun _ _ => None; now := 0 |}.

Definition sample_request : Request.t :=
  Request.make (js "https://api.example.com/x") (js "GET") None None.

Definition header_X_Y : header_array := [Some (Header.entry (js "X") (js "Y"))].

(** An exchange paused at the request stage. *)
Definition paused_request (id : jsstring) : Paused.t :=
  Paused.make id sample_request None None None None.

(** An exchange paused at the response stage with the headers [X: Y]. *)
Definition paused_response (id : jsstring) (code : Z) : Paused.t :=
  Paused.make id sample_request (Some code) (Some header_X_Y) None None.

(** A worker with the given sessions and paused exchanges. *)
Definition worker_with (tabs : list (Z * TabData.t))
    (exchanges : list (Z * Paused.t)) : worker :=
  {| attachedTabs := list_to_map tabs;
     pendingRequests :=
       list_to_map ((fun e => (Paused.requestId e.2, Pending.make e.1 e.2))
                      <$> exchanges);
     requestData := ∅ |}.

(** A string made of one unpaired surrogate. *)
Definition lone_surrogate : jsstring := [55296%N].

(** ** The body accessor and the helpers around the handlers *)

(** The three transport calls of a fresh attach, in order. *)
Definition attach_calls : list call :=
  [ Attach "1.3";
    SendCommand "Network.enable" NoParams;
    SendCommand "Fetch.enable" (Patterns fetch_patterns) ].

(** The error of the first of them that the transport rejects. *)
Definition first_rejection (env : environment) (tabId : Z) : option error :=
  list_find is_Some (transport env tabId <$> attach_calls) ≫= snd.

(** The [RESPONSE_BODY] message and the result of a body accessor. *)
Module ResponseBody.
(** [notAvailable] is [false] when the message has no such field. *)
Record t := make {
  requestId : jsstring;
  body : jsstring;
  base64Encoded : bool;
  notAvailable : bool
}.
Record result := make_result {
  result_body : jsstring;
  result_base64Encoded : bool
}.
End ResponseBody.

(** What [getResponseBody] does to the outside world; it does not touch
    the maps of the worker. *)
Inductive body_event :=
  | BodyPosted (p : port) (m : ResponseBody.t)
  | BodyCalled (tabId : Z) (c : call)
  | BodyLogged (text : string).

Definition B (A : Type) : Type := (result A * list body_event)%type.

Definition retB {A} (a : A) : B A := (Returns a, []).
Definition throwB {A} (e : error) : B A := (Throws e, []).
Definition logB (text : string) : B unit := (Returns tt, [BodyLogged text]).

Definition bindB {A C} (m : B A) (k : A → B C) : B C :=
  match m with
  | (Returns a, t1) => match k a with (o, t2) => (o, t1 ++ t2) end
  | (Throws e, t1) => (Throws e, t1)
  end.

Definition catchB {A} (m : B A) (h : error → B A) : B A :=
  match m with
  | (Returns a, t1) => (Returns a, t1)
  | (Throws e, t1) => match h e with (o, t2) => (o, t1 ++ t2) end
  end.

Section BodyAccessor.

Variable env : environment.

(** What the transport resolves an accepted body accessor call with. *)
Variable bodies : Z → call → ResponseBody.result.

Definition accessor (method : string) (requestId : jsstring) : call :=
  SendCommand method (Params (Command.of_id requestId)).

(** [await chrome.debugger.sendCommand(target, method, { requestId })] *)
Definition sendB (tabId : Z) (method : string) (requestId : jsstring)
    : B ResponseBody.result :=
  let c := accessor method requestId in
  bindB (Returns tt, [BodyCalled tabId c]) (fun _ =>
    match transport env tabId c with
    | None => retB (bodies tabId c)
    | Some e => throwB e
    end).

Definition postB (p : port) (m : ResponseBody.t) : B unit :=
  bindB (Returns tt, [BodyPosted p m]) (fun _ =>
    match ports env p with
    | None => retB tt
    | Some e => throwB e
    end).

(** The [try { port.postMessage(...) } catch (portError) { ... }] that
    follows each accessor. *)
Definition post_result (p : port) (requestId : jsstring)
    (r : ResponseBody.result) : B unit :=
  catchB
    (postB p (ResponseBody.make requestId (ResponseBody.result_body r)
                (ResponseBody.result_base64Encoded r) false))
    (fun portError =>
       if mentions_disconnected portError
       then logB "Port disconnected while sending response body"
       else throwB portError).

Definition getResponseBody (tabId : Z) (requestId : jsstring)
    (port : option port) : B unit :=
  match port with
  | None => logB "Port is not available for getting response body"
  | Some port =>
    catchB
      (bindB
         (* the inner [try]: [true] when it ended in [return] *)
         (catchB
            (bindB (sendB tabId "Fetch.getResponseBody" requestId) (fun result =>
             bindB (post_result port requestId result) (fun _ =>
             retB true)))
            (fun _ => retB false))
         (fun returned =>
            if returned : bool then retB tt
            else
              bindB (sendB tabId "Network.getResponseBody" requestId) (fun result =>
              post_result port requestId result)))
      (fun _ =>
         bindB (logB "Failed to get response body:") (fun _ =>
         catchB
           (postB port (ResponseBody.make requestId [] false true))
           (fun portError =>
              match message portError with
              | Some m =>
                if negb (includes (js "disconnected") m)
                then logB "Unexpected error:"
                else retB tt
              | None => retB tt
              end)))
  end.

End BodyAccessor.

Definition body_posted (tr : list body_event) : list ResponseBody.t :=
  tr ≫= fun e => match e with BodyPosted _ m => [m] | _ => [] end.

Definition body_calls (tr : list body_event) : list (Z * call) :=
  tr ≫= fun e => match e with BodyCalled t c => [(t, c)] | _ => [] end.

(** ** Consistency of the three maps *)

(** Every entry is filed under its own key: a session under its target,
    a paused exchange and a request snapshot under their exchange id. *)
Definition consistent (w : worker) : Prop :=
  (∀ t d, attachedTabs w !! t = Some d → TabData.target d = t)
  ∧ (∀ id p, pendingRequests w !! id = Some p →
       Paused.requestId (Pending.params p) = id)
  ∧ (∀ id s, requestData w !! id = Some s →
       RequestIntercepted.requestId (Snapshot.data s) = id).

(** A string whose code units are all 16 bits wide. *)
Definition well_formed_string (s : jsstring) : Prop :=
  Forall (fun c => (c < 65536)%N) s.

(** A string of ASCII characters only. *)
Definition ascii_string (s : jsstring) : Prop :=
  Forall (fun c => (c < 128)%N) s.

(** ** More sample worlds *)

Definition port_error : error :=
  Error (Some (js "Attempting to use a disconnected port object")).

(** Every port has hung up; the transport accepts every call. *)
Definition hung_up : environment :=
  {| ports := fun _ => Some port_error; transport := fun _ _ => None; now := 0 |}.

Definition refusal : error := Error (Some (js "Cannot access a chrome:// URL")).

(** The transport rejects every call; every port delivers. *)
Definition refusing : environment :=
  {| ports := fun _ => None; transport := fun _ _ => Some refusal; now := 0 |}.

(** * Properties *)

(** ** The built-ins on sample inputs *)

Example btoa_hello : btoa (js "hello") = Some (js "aGVsbG8=").
Proof. reflexivity. Qed.

Example encode_euro :
  encodeURIComponent (js "a b" ++ [8364%N]) = Some (js "a%20b%E2%82%AC").
Proof. reflexivity. Qed.

Example unescape_euro :
  unescape (js "a%20b%E2%82%AC") = js "a b" ++ [226; 130; 172]%N.
Proof. reflexivity. Qed.

Example trim_spaces : trim (js "  Host ") = js "Host".
Proof. reflexivity. Qed.


(** ** Resume commands on an exchange that is not stored *)

Ltac unfold_monad :=
  unfold bind, try_catch, get, modify, emit, ret, throw, or_throw in *.

Ltac unfold_command :=
  unfold Command.set_url, Command.set_method, Command.set_headers,
    Command.set_postData, Command.set_responseCode,
    Command.set_responseHeaders, Command.set_body, Command.set_errorReason,
    Command.of_id in *.

Ltac destruct_transport :=
  match goal with
  | |- context [transport ?e ?t ?c] => destruct (transport e t c)
  end.

Ltac unfold_effects :=
  unfold postMessage, debugger, console_error, console_warn,
    btoa_utf8, btoa_direct in *.

Lemma absent_is_noop env c w :
  pendingRequests w !! exchange c = None →
  ∃ text, onMessage env c w = Run (Returns tt) w [Logged error_level text].
Proof.
  intros Habsent.
  destruct c as [id m | id m | id]; simpl in *;
    unfold continueRequest, continueResponse, blockRequest;
    unfold_monad; simpl; rewrite Habsent; simpl; eauto.
Qed.

(** ** What the resume commands do on a stored exchange *)

Lemma continueRequest_run env id mods w pending :
  pendingRequests w !! id = Some pending →
  let r := continueRequest env id mods w in
  let c := SendCommand "Fetch.continueRequest" (Params (continue_command id mods)) in
  outcome r = Returns tt
  ∧ posted (trace r) = []
  ∧ calls (trace r) = [(Pending.tabId pending, c)]
  ∧ final r = match transport env (Pending.tabId pending) c with
              | None => with_pendingRequests (delete id) w
              | Some _ => w
              end.
Proof.
  intros Hp. unfold continueRequest, continue_command, encode_body.
  unfold_effects. unfold_monad. simpl. rewrite Hp. simpl.
  destruct mods as [p|]; simpl.
  - destruct (RequestPatch.postData p) as [pd|]; simpl.
    + destruct (encodeURIComponent pd) as [e|]; simpl;
        [destruct (btoa (unescape e)); simpl|];
        try (destruct (btoa pd); simpl);
        destruct_transport; simpl; auto.
    + destruct_transport; simpl; auto.
  - destruct_transport; simpl; auto.
Qed.

Lemma continueResponse_run env id mods w pending :
  pendingRequests w !! id = Some pending →
  let r := continueResponse env id mods w in
  outcome r = Returns tt
  ∧ posted (trace r) = []
  ∧ match fulfill_command id (Pending.params pending) mods with
    | Some command =>
      let c := SendCommand "Fetch.fulfillRequest" (Params command) in
      calls (trace r) = [(Pending.tabId pending, c)]
      ∧ final r = match transport env (Pending.tabId pending) c with
                  | None => with_pendingRequests (delete id) w
                  | Some _ => w
                  end
    | None => calls (trace r) = [] ∧ final r = w
    end.
Proof.
  intros Hp. unfold continueResponse, fulfill_command, encode_body.
  unfold_effects. unfold_monad. simpl. rewrite Hp. simpl.
  destruct mods as [p|]; simpl.
  - destruct (ResponsePatch.body p) as [body|]; simpl.
    + destruct (encodeURIComponent body) as [e|]; simpl;
        [destruct (btoa (unescape e)); simpl|];
        try (destruct (btoa body); simpl);
        try destruct_transport; simpl; auto.
    + destruct_transport; simpl; auto.
  - destruct_transport; simpl; auto.
Qed.

Lemma blockRequest_run env id w pending :
  pendingRequests w !! id = Some pending →
  let r := blockRequest env id w in
  let c := SendCommand "Fetch.failRequest" (Params (fail_command id)) in
  outcome r = Returns tt
  ∧ posted (trace r) = []
  ∧ calls (trace r) = [(Pending.tabId pending, c)]
  ∧ final r = match transport env (Pending.tabId pending) c with
              | None => with_pendingRequests (delete id) w
              | Some _ => w
              end.
Proof.
  intros Hp. unfold blockRequest, fail_command.
  unfold_effects. unfold_monad. simpl. rewrite Hp. simpl.
  destruct_transport; simpl; auto.
Qed.

Lemma continue_command_fields id (mods : option RequestPatch.t) :
  let p := default RequestPatch.empty mods in
  let c := continue_command id mods in
  Command.requestId c = id
  ∧ Command.url c =
      (if truthy_string (RequestPatch.url p) then RequestPatch.url p else None)
  ∧ Command.method c =
      (if truthy_string (RequestPatch.method p) then RequestPatch.method p else None)
  ∧ Command.headers c = request_headers <$> RequestPatch.headers p
  ∧ Command.postData c = RequestPatch.postData p ≫= encode_body
  ∧ Command.responseCode c = None
  ∧ Command.responseHeaders c = None
  ∧ Command.body c = None
  ∧ Command.errorReason c = None.
Proof.
  unfold continue_command.
  destruct mods as [[u m h pd]|]; simpl; [|done].
  destruct (pd ≫= encode_body); destruct u as [[|? ?]|], m as [[|? ?]|], h;
    simpl; done.
Qed.

Lemma fulfill_command_fields id params (mods : option ResponsePatch.t) c :
  fulfill_command id params mods = Some c →
  let code := mods ≫= ResponsePatch.responseCode in
  Command.requestId c = id
  ∧ Command.responseCode c =
      Some (if truthy_number code then default 0%Z code
            else if truthy_number (Paused.responseStatusCode params)
                 then default 0%Z (Paused.responseStatusCode params)
                 else 200%Z)
  ∧ Command.responseHeaders c =
      Some (default (default [] (Paused.responseHeaders params))
                    (mods ≫= ResponsePatch.responseHeaders))
  ∧ Command.body c = (mods ≫= ResponsePatch.body) ≫= encode_body.
Proof.
  unfold fulfill_command.
  destruct mods as [[code h body]|]; simpl.
  - destruct body as [body|]; simpl.
    + destruct (encode_body body); simpl; [|done].
      intros [= <-]. destruct (truthy_number code), h; simpl; done.
    + intros [= <-]. destruct (truthy_number code), h; simpl; done.
  - intros [= <-]. done.
Qed.

Lemma fulfill_command_None id params (mods : option ResponsePatch.t) :
  fulfill_command id params mods = None ↔
  ∃ body, mods ≫= ResponsePatch.body = Some body ∧ encode_body body = None.
Proof.
  unfold fulfill_command.
  destruct mods as [[code h body]|]; simpl.
  - destruct body as [body|]; simpl.
    + destruct (encode_body body) eqn:He; simpl.
      * split; [done|]. intros (b & [= <-] & Hb). congruence.
      * split; [eauto|done].
    + split; [done|]. intros (b & ? & _). done.
  - split; [done|]. intros (b & ? & _). done.
Qed.

(** An unpaired surrogate, on which [encodeURIComponent] throws, does not
    fit in a byte: the direct encoding throws on the same input. *)
Lemma uri_error_btoa_error (s : jsstring) :
  encodeURIComponent s = None → btoa s = None.
Proof.
  unfold btoa. induction s as [|c t IH]; simpl; [done|].
  destruct (is_unreserved c).
  - destruct (encodeURIComponent t); [done|]. intros _.
    rewrite andb_comm. destruct (forallb _ t); [by specialize (IH eq_refl)|done].
  - destruct (is_low_surrogate c) eqn:Hlow.
    + intros _. unfold is_low_surrogate, in_range in Hlow.
      apply andb_prop in Hlow as [Hlo _]. apply N.leb_le in Hlo.
      destruct (c <=? 255)%N eqn:Hc; [apply N.leb_le in Hc; lia|done].
    + destruct (is_high_surrogate c) eqn:Hhigh.
      * intros _. unfold is_high_surrogate, in_range in Hhigh.
        apply andb_prop in Hhigh as [Hlo _]. apply N.leb_le in Hlo.
        destruct (c <=? 255)%N eqn:Hc; [apply N.leb_le in Hc; lia|done].
      * destruct (encodeURIComponent t); [done|]. intros _.
        rewrite andb_comm. destruct (forallb _ t); [by specialize (IH eq_refl)|done].
Qed.

Lemma uri_error_encode_body (s : jsstring) :
  encodeURIComponent s = None → encode_body s = None.
Proof.
  intros H. unfold encode_body. rewrite H. simpl. by apply uri_error_btoa_error.
Qed.

Lemma commands_of_calls tr t m c :
  calls tr = [(t, SendCommand m (Params c))] → commands tr = [(t, m, c)].
Proof. unfold commands. by intros ->. Qed.

Lemma commands_of_no_calls tr : calls tr = [] → commands tr = [].
Proof. unfold commands. by intros ->. Qed.

(** A run of a resume command on a stored exchange, whatever the command:
    at most one transport call, which resumes that exchange, and the store
    loses the exchange exactly when that call succeeds. *)
Lemma onMessage_run env c w pending :
  pendingRequests w !! exchange c = Some pending →
  let r := onMessage env c w in
  outcome r = Returns tt ∧ posted (trace r) = [] ∧
  ((calls (trace r) = [] ∧ final r = w)
   ∨ ∃ call, resumes (exchange c) call
       ∧ calls (trace r) = [(Pending.tabId pending, call)]
       ∧ final r = match transport env (Pending.tabId pending) call with
                   | None => with_pendingRequests (delete (exchange c)) w
                   | Some _ => w
                   end).
Proof.
  intros Hp. destruct c as [id mods | id mods | id]; simpl in *.
  - destruct (continueRequest_run env id mods w pending Hp) as (Ho & Hposted & Hc & Hf).
    split_and!; [done..|]. right. eexists. split_and!; [|done..].
    eexists _, _. split_and!; [done| |by left].
    apply continue_command_fields.
  - destruct (continueResponse_run env id mods w pending Hp) as (Ho & Hposted & H).
    split_and!; [done..|].
    destruct (fulfill_command id (Pending.params pending) mods) as [command|] eqn:Hcmd.
    + destruct H as [Hc Hf]. right. eexists. split_and!; [|done..].
      eexists _, _. split_and!; [done| |by right; left].
      by apply (fulfill_command_fields _ _ _ _ Hcmd).
    + by left.
  - destruct (blockRequest_run env id w pending Hp) as (Ho & Hposted & Hc & Hf).
    split_and!; [done..|]. right. eexists. split_and!; [|done..].
    eexists _, _. split_and!; [done|done|by right; right].
Qed.

(** ** C6: a resume or block command for an unknown exchange *)

(** C6. A ContinueRequest, ContinueResponse or Block command whose exchange
    id is not in the paused-exchange store returns normally, leaves the
    whole state of the worker as it was, issues no transport call, posts
    nothing, and writes exactly one console error. *)
Theorem unknown_exchange_is_logged_noop env c w :
  pendingRequests w !! exchange c = None →
  let r := onMessage env c w in
  outcome r = Returns tt
  ∧ final r = w
  ∧ calls (trace r) = []
  ∧ posted (trace r) = []
  ∧ ∃ text, trace r = [Logged error_level text].
Proof.
  intros Habsent. destruct (absent_is_noop env c w Habsent) as [text ->].
  simpl. eauto 6.
Qed.

Lemma unknown_exchange_is_logged_noop_witness :
  let r := onMessage quiet (BLOCK_REQUEST (js "gone")) initial in
  pendingRequests initial !! exchange (BLOCK_REQUEST (js "gone")) = None
  ∧ outcome r = Returns tt
  ∧ final r = initial
  ∧ calls (trace r) = []
  ∧ posted (trace r) = []
  ∧ ∃ text, trace r = [Logged error_level text].
Proof.
  intros r.
  assert (pendingRequests initial !! exchange (BLOCK_REQUEST (js "gone")) = None)
    as Habsent by (vm_compute; reflexivity).
  split; [exact Habsent|].
  exact (unknown_exchange_is_logged_noop quiet (BLOCK_REQUEST (js "gone")) initial Habsent).
Defined.

(** ** C4: when an exchange leaves the store *)

(** The three resume commands: the two other maps of the worker are never
    touched, and the store changes in one way only. *)
Lemma resume_removes_after_dispatch env c w :
  let r := onMessage env c w in
  (∃ tab call,
      calls (trace r) = [(tab, call)]
      ∧ resumes (exchange c) call
      ∧ transport env tab call = None
      ∧ is_Some (pendingRequests w !! exchange c)
      ∧ final r = with_pendingRequests (delete (exchange c)) w
      ∧ pendingRequests (final r) !! exchange c = None
      ∧ ∀ env' c', exchange c' = exchange c →
          calls (trace (onMessage env' c' (final r))) = []
          ∧ final (onMessage env' c' (final r)) = final r)
  ∨ (final r = w
     ∧ Forall (fun tc => is_Some (transport env tc.1 tc.2)) (calls (trace r))).
Proof.
  intros r. subst r.
  destruct (pendingRequests w !! exchange c) as [pending|] eqn:Hp.
  - destruct (onMessage_run env c w pending Hp) as (_ & _ & [[Hc Hf] | (call & Hres & Hc & Hf)]).
    + right. rewrite Hc. by split.
    + destruct (transport env (Pending.tabId pending) call) as [e|] eqn:Ht.
      * right. split; [done|]. rewrite Hc. repeat constructor. simpl. by rewrite Ht.
      * left. exists (Pending.tabId pending), call.
        assert (pendingRequests (final (onMessage env c w)) !! exchange c = None) as Hgone.
        { rewrite Hf. simpl. apply lookup_delete_eq. }
        split_and!; [done..|].
        intros env' c' Hid. rewrite <- Hid in Hgone.
        destruct (absent_is_noop env' c' _ Hgone) as [text ->]. by simpl.
  - right. destruct (absent_is_noop env c w Hp) as [text ->]. simpl. by split.
Qed.

Ltac destruct_world :=
  repeat match goal with
  | |- context [transport ?e ?t ?c] => destruct (transport e t c); simpl
  | |- context [ports ?e ?p] => destruct (ports e p); simpl
  | |- context [mentions_disconnected ?e] => destruct (mentions_disconnected e); simpl
  | |- context [bool_decide ?P] => destruct (bool_decide P); simpl
  end.






(** ** C3: the fields of a continue-request command *)

(** The claim of C3 fails on a patch whose [url] is the empty string: the
    patch has the field, the dispatched command does not. *)
Lemma empty_url_is_not_copied :
  let w := worker_with [] [(1%Z, paused_request (js "r1"))] in
  let patch := RequestPatch.make (Some []) None None None in
  is_Some (RequestPatch.url patch)
  ∧ ∃ c, commands (trace (continueRequest quiet (js "r1") (Some patch) w))
         = [(1%Z, "Fetch.continueRequest"%string, c)]
       ∧ Command.url c = None.
Proof.
  split; [by eexists|]. eexists. split; vm_compute; reflexivity.
Qed.

(** C3 (amended). On a stored exchange, [continueRequest] makes exactly one
    transport call, a [Fetch.continueRequest] for that exchange and its
    target.  Besides the exchange id its parameter object has no field that
    the patch does not have: [url] and [method] are copied when the patch
    has a non-empty one, [headers] (brought to the array form) whenever the
    patch defines it, [postData] (base64-encoded) when the patch defines it
    and one of the two encodings succeeds; it has none of the fields of a
    fulfill or fail command. *)
Theorem continue_request_copies_patch env id (mods : option RequestPatch.t) w pending :
  pendingRequests w !! id = Some pending →
  let p := default RequestPatch.empty mods in
  ∃ c,
    calls (trace (continueRequest env id mods w))
      = [(Pending.tabId pending, SendCommand "Fetch.continueRequest" (Params c))]
    ∧ commands (trace (continueRequest env id mods w))
      = [(Pending.tabId pending, "Fetch.continueRequest"%string, c)]
    ∧ Command.requestId c = id
    ∧ Command.url c =
        (if truthy_string (RequestPatch.url p) then RequestPatch.url p else None)
    ∧ Command.method c =
        (if truthy_string (RequestPatch.method p) then RequestPatch.method p else None)
    ∧ Command.headers c = request_headers <$> RequestPatch.headers p
    ∧ Command.postData c = RequestPatch.postData p ≫= encode_body
    ∧ Command.responseCode c = None
    ∧ Command.responseHeaders c = None
    ∧ Command.body c = None
    ∧ Command.errorReason c = None.
Proof.
  intros Hp p.
  destruct (continueRequest_run env id mods w pending Hp) as (_ & _ & Hc & _).
  exists (continue_command id mods). split; [done|].
  split; [by apply commands_of_calls|]. apply continue_command_fields.
Qed.

(** The scenario of C3: the patch [{method: "POST"}] on an exchange captured
    with method [GET]. *)
Lemma continue_request_copies_patch_witness :
  let w := worker_with [] [(1%Z, paused_request (js "r1"))] in
  let patch := RequestPatch.make None (Some (js "POST")) None None in
  pendingRequests w !! js "r1" = Some (Pending.make 1 (paused_request (js "r1")))
  ∧ ∃ c, commands (trace (continueRequest quiet (js "r1") (Some patch) w))
         = [(1%Z, "Fetch.continueRequest"%string, c)]
       ∧ Command.method c = Some (js "POST")
       ∧ Command.url c = None
       ∧ Command.headers c = None
       ∧ Command.postData c = None.
Proof.
  intros w patch.
  assert (pendingRequests w !! js "r1"
          = Some (Pending.make 1 (paused_request (js "r1")))) as Hp
    by (vm_compute; reflexivity).
  split; [exact Hp|].
  destruct (continue_request_copies_patch quiet (js "r1") (Some patch) w _ Hp)
    as (c & _ & Hc & _ & Hurl & Hmethod & Hheaders & HpostData & _).
  exists c. split_and!; [exact Hc|exact Hmethod|exact Hurl|exact Hheaders|exact HpostData].
Defined.

(** ** C2: the mandatory fields of a fulfill command *)

(** The claim of C2 fails on an exchange captured with status code 0: with
    no patch the dispatched command carries 200, not the captured code. *)
Lemma captured_status_zero_becomes_200 :
  let params := paused_response (js "r0") 0 in
  let w := worker_with [] [(1%Z, params)] in
  ∃ c, commands (trace (continueResponse quiet (js "r0") None w))
       = [(1%Z, "Fetch.fulfillRequest"%string, c)]
     ∧ Paused.responseStatusCode params = Some 0%Z
     ∧ Command.responseCode c = Some 200%Z
     ∧ Command.responseCode c ≠ Paused.responseStatusCode params.
Proof.
  eexists. split_and!; [vm_compute; reflexivity|reflexivity|reflexivity|done].
Qed.

(** C2 (amended). Every command that [continueResponse] dispatches on a
    stored exchange is a [Fetch.fulfillRequest] for that exchange which
    contains [responseCode] and [responseHeaders].  When the patch gives no
    [responseCode], the field is the captured status code if that is
    non-zero, and 200 if no code was captured or the captured code is 0;
    when the patch gives no [responseHeaders], the field is the captured
    header list, or the empty list if none was captured.  The command is
    dispatched whenever the patch has no body or its body can be
    encoded. *)
Theorem fulfill_defaults_to_captured env id (mods : option ResponsePatch.t) w pending :
  pendingRequests w !! id = Some pending →
  let r := continueResponse env id mods w in
  let params := Pending.params pending in
  (∀ t m c, (t, m, c) ∈ commands (trace r) →
     t = Pending.tabId pending
     ∧ m = "Fetch.fulfillRequest"%string
     ∧ Command.requestId c = id
     ∧ is_Some (Command.responseCode c)
     ∧ is_Some (Command.responseHeaders c)
     ∧ (mods ≫= ResponsePatch.responseCode = None →
        match Paused.responseStatusCode params with
        | Some s => if (s =? 0)%Z then Command.responseCode c = Some 200%Z
                    else Command.responseCode c = Some s
        | None => Command.responseCode c = Some 200%Z
        end)
     ∧ (mods ≫= ResponsePatch.responseHeaders = None →
        Command.responseHeaders c
        = Some (default [] (Paused.responseHeaders params))))
  ∧ ((∀ body, mods ≫= ResponsePatch.body = Some body → is_Some (encode_body body)) →
     ∃ c, commands (trace r) = [(Pending.tabId pending, "Fetch.fulfillRequest"%string, c)]).
Proof.
  intros Hp r params. subst r params.
  destruct (continueResponse_run env id mods w pending Hp) as (_ & _ & H).
  destruct (fulfill_command id (Pending.params pending) mods) as [command|] eqn:Hcmd.
  - destruct H as [Hc _]. apply commands_of_calls in Hc. rewrite Hc.
    destruct (fulfill_command_fields _ _ _ _ Hcmd) as (Hid & Hcode & Hheaders & _).
    split; [|eauto].
    intros t m c [= -> -> ->]%list_elem_of_singleton.
    split_and!; [done|done|done|by rewrite Hcode|by rewrite Hheaders| |].
    + intros Hnone. rewrite Hcode, Hnone. simpl.
      destruct (Paused.responseStatusCode (Pending.params pending)) as [s|]; simpl; [|done].
      by destruct (s =? 0)%Z.
    + intros Hnone. by rewrite Hheaders, Hnone.
  - destruct H as [Hc _]. apply commands_of_no_calls in Hc. rewrite Hc.
    split; [by intros t m c ?%elem_of_nil|].
    intros Henc. apply fulfill_command_None in Hcmd as (body & Hbody & Hnone).
    destruct (Henc body Hbody) as [b Hb]. congruence.
Qed.

(** The scenario of C2: no patch, captured status 200 and headers [X: Y]. *)
Lemma fulfill_defaults_to_captured_witness :
  let params := paused_response (js "r2") 200 in
  let w := worker_with [] [(1%Z, params)] in
  pendingRequests w !! js "r2" = Some (Pending.make 1 params)
  ∧ ∃ c, commands (trace (continueResponse quiet (js "r2") None w))
         = [(1%Z, "Fetch.fulfillRequest"%string, c)]
       ∧ Command.responseCode c = Some 200%Z
       ∧ Command.responseHeaders c = Some header_X_Y.
Proof.
  intros params w.
  assert (pendingRequests w !! js "r2" = Some (Pending.make 1 params)) as Hp
    by (vm_compute; reflexivity).
  split; [exact Hp|].
  destruct (fulfill_defaults_to_captured quiet (js "r2") None w _ Hp) as [Hall Hex].
  destruct Hex as [c Hc]; [intros body [=]|].
  exists c. split; [exact Hc|].
  destruct (Hall 1%Z "Fetch.fulfillRequest"%string c) as (_ & _ & _ & _ & _ & Hcode & Hheaders).
  { rewrite Hc. apply list_elem_of_singleton. reflexivity. }
  split; [exact (Hcode eq_refl)|exact (Hheaders eq_refl)].
Defined.

(** ** C5: a response body that cannot be encoded *)

(** C5 (what the code does where the claim fails). When the patch of a
    ContinueResponse has a body on which the UTF-8 path throws, the direct
    encoding throws too and is not caught on its own: no transport call is
    made at all and the exchange stays in the store. *)
Theorem fulfill_dropped_when_body_unencodable env id patch body w pending :
  pendingRequests w !! id = Some pending →
  ResponsePatch.body patch = Some body →
  encodeURIComponent body = None →
  let r := continueResponse env id (Some patch) w in
  outcome r = Returns tt ∧ calls (trace r) = [] ∧ final r = w.
Proof.
  intros Hp Hbody Huri.
  destruct (continueResponse_run env id (Some patch) w pending Hp) as (Ho & _ & H).
  assert (fulfill_command id (Pending.params pending) (Some patch) = None) as Hcmd.
  { apply fulfill_command_None. exists body. split; [done|].
    by apply uri_error_encode_body. }
  rewrite Hcmd in H. destruct H. done.
Qed.

Lemma fulfill_dropped_when_body_unencodable_witness :
  let params := paused_response (js "r2") 200 in
  let w := worker_with [] [(1%Z, params)] in
  let patch := ResponsePatch.make None None (Some lone_surrogate) in
  let r := continueResponse quiet (js "r2") (Some patch) w in
  (pendingRequests w !! js "r2" = Some (Pending.make 1 params)
   ∧ ResponsePatch.body patch = Some lone_surrogate
   ∧ encodeURIComponent lone_surrogate = None)
  ∧ outcome r = Returns tt ∧ calls (trace r) = [] ∧ final r = w.
Proof.
  intros params w patch r.
  assert (pendingRequests w !! js "r2" = Some (Pending.make 1 params)) as Hp
    by (vm_compute; reflexivity).
  split; [split_and!; [exact Hp|reflexivity|reflexivity]|].
  exact (fulfill_dropped_when_body_unencodable quiet (js "r2") patch lone_surrogate
           w _ Hp eq_refl eq_refl).
Defined.

(** On the same body [continueRequest] still dispatches, without [postData]. *)
Example continue_request_skips_unencodable_body :
  let w := worker_with [] [(1%Z, paused_request (js "r1"))] in
  let patch := RequestPatch.make None None None (Some lone_surrogate) in
  commands (trace (continueRequest quiet (js "r1") (Some patch) w))
  = [(1%Z, "Fetch.continueRequest"%string, Command.of_id (js "r1"))].
Proof. vm_compute. reflexivity. Qed.

(** ** C1: request or response interception *)

(** The claim of C1 fails on a pause event that carries the status code 0:
    it is reported as a request interception. *)
Lemma status_zero_classified_as_request :
  let params := paused_response (js "r0") 0 in
  Paused.responseStatusCode params = Some 0%Z
  ∧ ∃ d, posted (trace (handleRequestPaused quiet 1 params (Some 0%nat) initial))
         = [REQUEST_INTERCEPTED d].
Proof. split; [reflexivity|]. eexists. vm_compute. reflexivity. Qed.

(** C1 (amended). On every pause event handed over with a port, the handler
    stores the exchange under its id and posts exactly one message.  The
    message is a ResponseIntercepted, carrying the status code and its text
    from the status table, exactly when the event carries a non-zero status
    code; it is a RequestIntercepted when the event carries no status code
    or the code 0.  The stage depends on the status-code field alone. *)
Theorem pause_classified_by_truthy_status env tabId params port w :
  let r := handleRequestPaused env tabId params (Some port) w in
  pendingRequests (final r) !! Paused.requestId params
    = Some (Pending.make tabId params)
  ∧ ∃ m, posted (trace r) = [m]
    ∧ classify m
      = Some (if truthy_number (Paused.responseStatusCode params)
              then response_stage else request_stage)
    ∧ match Paused.responseStatusCode params with
      | Some c =>
        if (c =? 0)%Z
        then ∃ d, m = REQUEST_INTERCEPTED d
                  ∧ RequestIntercepted.requestId d = Paused.requestId params
        else ∃ d, m = RESPONSE_INTERCEPTED d
                  ∧ ResponseIntercepted.requestId d = Paused.requestId params
                  ∧ ResponseIntercepted.status d = c
                  ∧ ResponseIntercepted.statusText d = getStatusText c
      | None => ∃ d, m = REQUEST_INTERCEPTED d
                     ∧ RequestIntercepted.requestId d = Paused.requestId params
      end.
Proof.
  unfold handleRequestPaused. unfold_effects. unfold_monad.
  destruct params as [id request status headers networkId resourceType]. simpl.
  destruct (normalize_headers (Request.headers request)) as [headersObj headersArray].
  destruct status as [c|]; simpl; [destruct (c =? 0)%Z; simpl|].
  all: destruct (ports env port) as [e|]; simpl;
    [destruct (mentions_disconnected e); simpl;
     [destruct (bool_decide _); simpl|]|].
  all: (split; [by rewrite lookup_insert_eq|]); eexists; split_and!; eauto.
Qed.

(** ** C9: attaching to a target that is already attached *)

(** C9. On a target that already has a session, [attachDebugger] returns
    normally after doing one thing only: it hands the Attached
    acknowledgment for that target to the port of the caller.  It makes no
    transport call, posts no error, adds or changes no entry of the
    registry (a finite map: at most one session per target), and leaves the
    other maps alone; when the port delivers, the state is unchanged. *)
Theorem attach_when_attached_acknowledges env tabId port w tabData :
  attachedTabs w !! tabId = Some tabData →
  let r := attachDebugger env tabId port w in
  outcome r = Returns tt
  ∧ trace r = [Posted port (DEBUGGER_ATTACHED tabId)]
  ∧ calls (trace r) = []
  ∧ posted (trace r) = [DEBUGGER_ATTACHED tabId]
  ∧ attachedTabs (final r) ⊆ attachedTabs w
  ∧ pendingRequests (final r) = pendingRequests w
  ∧ requestData (final r) = requestData w
  ∧ (ports env port = None → final r = w).
Proof.
  intros Htab. unfold attachDebugger. unfold_effects. unfold_monad. simpl.
  rewrite Htab. rewrite bool_decide_eq_true_2 by eauto. simpl.
  destruct (ports env port) as [e|]; simpl.
  - split_and!; [done..|apply delete_subseteq|done|done|done].
  - split_and!; done.
Qed.

Lemma attach_when_attached_acknowledges_witness :
  let w := worker_with [(7%Z, TabData.make 3 7)] [] in
  let r := attachDebugger quiet 7 3%nat w in
  attachedTabs w !! 7%Z = Some (TabData.make 3 7)
  ∧ trace r = [Posted 3%nat (DEBUGGER_ATTACHED 7)]
  ∧ final r = w.
Proof.
  intros w r.
  assert (attachedTabs w !! 7%Z = Some (TabData.make 3 7)) as Htab
    by (vm_compute; reflexivity).
  split; [exact Htab|].
  destruct (attach_when_attached_acknowledges quiet 7 3%nat w _ Htab)
    as (_ & Htrace & _ & _ & _ & _ & _ & Hfinal).
  split; [exact Htrace|exact (Hfinal eq_refl)].
Defined.

(** ** C7: what a teardown discards *)

(** The claim of C7 fails when two targets are attached: detaching one
    discards the paused exchange of the other, whose session is kept. *)
Lemma detach_discards_exchanges_of_other_targets :
  let w := worker_with [(1%Z, TabData.make 0 1); (2%Z, TabData.make 0 2)]
                       [(1%Z, paused_request (js "a")); (2%Z, paused_request (js "b"))] in
  let r := detachDebugger quiet 1 w in
  attachedTabs (final r) !! 2%Z = Some (TabData.make 0 2)
  ∧ pendingRequests w !! js "b" = Some (Pending.make 2 (paused_request (js "b")))
  ∧ pendingRequests (final r) !! js "b" = None.
Proof. split_and!; vm_compute; reflexivity. Qed.

(** C7 (amended). When the session of a target is destroyed, by a
    [detachDebugger] whose transport detach succeeds or by the [onDetach]
    listener, the registry loses the entry of that target and keeps every
    other session as it was, and the paused-exchange store and the request
    snapshots are emptied as a whole: the exchanges of that target are
    discarded, and so are those of every other target.  The involuntary
    path makes no transport call. *)
Theorem teardown_clears_whole_store env tabId reason w :
  is_Some (attachedTabs w !! tabId) →
  transport env tabId Detach = None →
  final (detachDebugger env tabId w) = torn_down tabId w
  ∧ final (onDetach env tabId reason w) = torn_down tabId w
  ∧ calls (trace (onDetach env tabId reason w)) = []
  ∧ (∀ id, pendingRequests (torn_down tabId w) !! id = None)
  ∧ (∀ t, t ≠ tabId →
       attachedTabs (torn_down tabId w) !! t = attachedTabs w !! t).
Proof.
  intros [tabData Htab] Hdetach.
  unfold detachDebugger, onDetach, torn_down, clear_exchanges.
  unfold_effects. unfold_monad. simpl.
  rewrite Htab, Hdetach. rewrite bool_decide_eq_true_2 by eauto. simpl.
  split_and!.
  - done.
  - by destruct (ports env (TabData.port tabData)).
  - by destruct (ports env (TabData.port tabData)).
  - intros id. apply lookup_empty.
  - intros t Ht. by apply lookup_delete_ne.
Qed.

Lemma teardown_clears_whole_store_witness :
  let w := worker_with [(1%Z, TabData.make 0 1)]
                       [(1%Z, paused_request (js "a")); (1%Z, paused_request (js "b"))] in
  (is_Some (attachedTabs w !! 1%Z) ∧ transport quiet 1 Detach = None)
  ∧ final (onDetach quiet 1 (js "target_closed") w) = torn_down 1 w
  ∧ pendingRequests (torn_down 1 w) !! js "a" = None
  ∧ pendingRequests (torn_down 1 w) !! js "b" = None.
Proof.
  intros w.
  assert (is_Some (attachedTabs w !! 1%Z)) as Htab
    by (exists (TabData.make 0 1); vm_compute; reflexivity).
  split; [split; [exact Htab|reflexivity]|].
  destruct (teardown_clears_whole_store quiet 1 (js "target_closed") w Htab eq_refl)
    as (_ & Hon & _ & Hgone & _).
  split_and!; [exact Hon|apply Hgone|apply Hgone].
Defined.

(** ** C8: header mapping to list and back *)

(** The claim of C8 fails on a mapping with an empty header name: the way
    back drops the entry. *)
Lemma empty_header_name_is_lost :
  let o : header_object := {[ [] := Some (js "v") ]} in
  o !! [] = Some (Some (js "v"))
  ∧ headers_round_trip o !! [] = None
  ∧ headers_round_trip o ≠ o.
Proof.
  intros o.
  assert (o !! [] = Some (Some (js "v"))) as Ho by (vm_compute; reflexivity).
  assert (headers_round_trip o !! [] = None) as Hr by (vm_compute; reflexivity).
  split_and!; [done..|]. intros Heq. rewrite Heq in Hr. congruence.
Qed.

(** The steps of the [forEach] on entries that pass its guard are plain
    insertions. *)
Lemma object_of_array_insertions (l : list (jsstring * option jsstring)) acc :
  Forall (fun kv => kv.1 ≠ [] ∧ kv.1 ≠ js "__proto__" ∧ is_Some kv.2) l →
  foldl (fun o h =>
           if well_formed_entry h then
             match h with
             | Some {| Header.name := Some n; Header.value := v |} => assign n v o
             | _ => o
             end
           else o) acc
        ((fun kv => Some (Header.make (Some kv.1) kv.2)) <$> l)
  = foldl (fun o kv => <[kv.1 := kv.2]> o) acc l.
Proof.
  intros Hall. revert acc.
  induction Hall as [|[k v] l (Hk & Hproto & [v' Hv]) _ IH]; intros acc; [done|].
  simpl in *. subst v. rewrite <- IH. f_equal.
  unfold assign. rewrite decide_False by done.
  destruct k; [done|]. simpl. done.
Qed.

Lemma foldl_insert_lookup (l : list (jsstring * option jsstring))
    (acc : header_object) k :
  NoDup l.*1 →
  foldl (fun o kv => <[kv.1 := kv.2]> o) acc l !! k
  = match (list_to_map l : header_object) !! k with
    | Some v => Some v
    | None => acc !! k
    end.
Proof.
  revert acc. induction l as [|[k0 v0] l IH]; intros acc Hnodup; simpl.
  - by rewrite lookup_empty.
  - apply NoDup_cons in Hnodup as [Hfresh Hnodup].
    rewrite IH by done. destruct (decide (k = k0)) as [->|Hne].
    + rewrite (not_elem_of_list_to_map_1 l k0) by done.
      by rewrite !lookup_insert_eq.
    + by rewrite !lookup_insert_ne.
Qed.

(** C8 (amended). For every header mapping in which no name is empty or
    [__proto__] and no value is undefined, turning the mapping into the
    name/value list (as for [headersArray]) and that list back into a
    mapping (as for [headersObj]) gives the mapping with the same key/value
    pairs. *)
Theorem header_round_trip (o : header_object) :
  (∀ k v, o !! k = Some v → k ≠ [] ∧ k ≠ js "__proto__" ∧ is_Some v) →
  headers_round_trip o = o.
Proof.
  intros Hgood. unfold headers_round_trip. simpl.
  unfold object_of_array, array_of_object.
  rewrite object_of_array_insertions.
  - apply map_eq. intros k.
    rewrite foldl_insert_lookup by apply NoDup_fst_map_to_list.
    rewrite list_to_map_to_list, lookup_empty. by destruct (o !! k).
  - apply Forall_forall. intros [k v] Hin.
    apply elem_of_map_to_list in Hin. by apply (Hgood k v).
Qed.

Lemma header_round_trip_witness :
  let o : header_object :=
    {[ js "Accept" := Some (js "*/*"); js "Host" := Some (js "example.com") ]} in
  (∀ k v, o !! k = Some v → k ≠ [] ∧ k ≠ js "__proto__" ∧ is_Some v)
  ∧ headers_round_trip o = o.
Proof.
  intros o.
  assert (∀ k v, o !! k = Some v → k ≠ [] ∧ k ≠ js "__proto__" ∧ is_Some v) as Hgood.
  { intros k v Hkv. subst o.
    apply lookup_insert_Some in Hkv as [[<- <-]|[_ Hkv]].
    - split_and!; [done|done|by eexists].
    - apply lookup_singleton_Some in Hkv as [<- <-].
      split_and!; [done|done|by eexists]. }
  split; [exact Hgood|exact (header_round_trip o Hgood)].
Defined.

(** ** C10: response metadata and the exchange store *)

(** What [continueResponse] sends depends on the worker through the
    paused-exchange store alone. *)
Lemma continueResponse_reads_pending_only env id mods w1 w2 :
  pendingRequests w1 = pendingRequests w2 →
  let r1 := continueResponse env id mods w1 in
  let r2 := continueResponse env id mods w2 in
  calls (trace r1) = calls (trace r2)
  ∧ commands (trace r1) = commands (trace r2)
  ∧ pendingRequests (final r1) = pendingRequests (final r2).
Proof.
  intros Heq r1 r2. subst r1 r2.
  assert (calls (trace (continueResponse env id mods w1))
          = calls (trace (continueResponse env id mods w2))
          ∧ pendingRequests (final (continueResponse env id mods w1))
          = pendingRequests (final (continueResponse env id mods w2))) as [Hc Hf].
  { destruct (pendingRequests w1 !! id) as [pending|] eqn:Hp1.
    - assert (pendingRequests w2 !! id = Some pending) as Hp2 by by rewrite <- Heq.
      destruct (continueResponse_run env id mods w1 pending Hp1) as (_ & _ & H1).
      destruct (continueResponse_run env id mods w2 pending Hp2) as (_ & _ & H2).
      destruct (fulfill_command id (Pending.params pending) mods) as [command|].
      + destruct H1 as [-> ->], H2 as [-> ->]. split; [done|].
        destruct (transport env _ _); simpl; by rewrite Heq.
      + destruct H1 as [-> ->], H2 as [-> ->]. done.
    - assert (pendingRequests w2 !! id = None) as Hp2 by by rewrite <- Heq.
      destruct (absent_is_noop env (CONTINUE_RESPONSE id mods) w1 Hp1) as [t1 H1].
      destruct (absent_is_noop env (CONTINUE_RESPONSE id mods) w2 Hp2) as [t2 H2].
      simpl in H1, H2. rewrite H1, H2. done. }
  split_and!; [done| |done]. unfold commands. by rewrite Hc.
Qed.

(** C10. [handleResponseReceived] returns normally without any outside
    effect; it leaves the registry and the paused-exchange store as they
    were and writes to the request snapshots only (the [response] property
    of the snapshot of that id, if there is one).  So for every exchange id
    and patch, [continueResponse] makes the same transport calls, with the
    same fulfill payload, and leaves the same store, whether or not the
    event was processed before. *)
Theorem response_received_leaves_exchange_store tabId params port w :
  let r0 := handleResponseReceived tabId params port w in
  outcome r0 = Returns tt
  ∧ trace r0 = []
  ∧ attachedTabs (final r0) = attachedTabs w
  ∧ pendingRequests (final r0) = pendingRequests w
  ∧ requestData (final r0)
    = alter (set_response (Received.response params))
            (Received.requestId params) (requestData w)
  ∧ ∀ env id mods,
      let r := continueResponse env id mods w in
      let r' := continueResponse env id mods (final r0) in
      calls (trace r') = calls (trace r)
      ∧ commands (trace r') = commands (trace r)
      ∧ pendingRequests (final r') = pendingRequests (final r).
Proof.
  intros r0.
  assert (outcome r0 = Returns tt ∧ trace r0 = []
          ∧ attachedTabs (final r0) = attachedTabs w
          ∧ pendingRequests (final r0) = pendingRequests w
          ∧ requestData (final r0)
            = alter (set_response (Received.response params))
                    (Received.requestId params) (requestData w))
    as (Ho & Ht & Ha & Hp & Hd).
  { subst r0. unfold handleResponseReceived. unfold_monad. simpl.
    destruct params as [id [status statusText headers]]. simpl.
    destruct (requestData w !! id) as [snapshot|] eqn:Hsnap.
    - rewrite bool_decide_eq_true_2 by eauto. simpl. done.
    - rewrite bool_decide_eq_false_2 by (intros [? ?]; congruence). simpl.
      split_and!; [done..|]. apply map_eq. intros k.
      destruct (decide (k = id)) as [->|Hne].
      + by rewrite lookup_alter_eq, Hsnap.
      + by rewrite lookup_alter_ne. }
  split_and!; [done..|].
  intros env id mods. by apply continueResponse_reads_pending_only.
Qed.


(** * Further properties of the worker *)

(** ** Handlers swallow every exception *)

Lemma attachDebugger_returns env tabId port w :
  outcome (attachDebugger env tabId port w) = Returns tt.
Proof.
  unfold attachDebugger. unfold_effects. unfold_monad. simpl.
  destruct_world; done.
Qed.

Lemma detachDebugger_returns env tabId w :
  outcome (detachDebugger env tabId w) = Returns tt.
Proof.
  unfold detachDebugger. unfold_effects. unfold_monad. simpl.
  destruct_world; done.
Qed.

(** What a pause does to the three maps, whatever the port does. *)
Lemma handleRequestPaused_run env tabId params port w :
  let r := handleRequestPaused env tabId params port w in
  outcome r = Returns tt
  ∧ calls (trace r) = []
  ∧ pendingRequests (final r)
    = <[Paused.requestId params := Pending.make tabId params]> (pendingRequests w)
  ∧ (attachedTabs (final r) = attachedTabs w
     ∨ attachedTabs (final r) = delete tabId (attachedTabs w))
  ∧ (requestData (final r) = requestData w
     ∨ ∃ d, RequestIntercepted.requestId d = Paused.requestId params
         ∧ requestData (final r)
           = <[Paused.requestId params := Snapshot.make d None]> (requestData w)).
Proof.
  unfold handleRequestPaused. unfold_effects. unfold_monad. simpl.
  destruct port as [port|]; simpl; [|by auto 6].
  destruct (normalize_headers _) as [headersObj headersArray].
  destruct (truthy_number _); simpl; destruct_world; split_and!;
    first [done | by left | by right
          | (right; eexists; split; [|reflexivity]; reflexivity)].
Qed.

Lemma bind_get {A} (k : worker → M A) w : bind get k w = k w w.
Proof. unfold bind, get. by destruct (k w w). Qed.

(** The listener hands an event of an attached target to its handler and
    drops every other event. *)
Lemma onEvent_dispatch env tabId ev w :
  onEvent env tabId ev w
  = match attachedTabs w !! tabId with
    | None => Run (Returns tt) w []
    | Some tabData =>
      match ev with
      | Fetch_requestPaused params =>
        handleRequestPaused env tabId params (Some (TabData.port tabData)) w
      | Network_responseReceived params =>
        handleResponseReceived tabId params (TabData.port tabData) w
      | other_event _ => Run (Returns tt) w []
      end
    end.
Proof.
  unfold onEvent. rewrite bind_get.
  destruct (attachedTabs w !! tabId); [|done]. by destruct ev.
Qed.

Lemma handleResponseReceived_run tabId params port w :
  let r := handleResponseReceived tabId params port w in
  outcome r = Returns tt ∧ trace r = []
  ∧ attachedTabs (final r) = attachedTabs w
  ∧ pendingRequests (final r) = pendingRequests w
  ∧ requestData (final r)
    = alter (set_response (Received.response params))
            (Received.requestId params) (requestData w).
Proof.
  unfold handleResponseReceived. unfold_monad. simpl.
  destruct params as [id [status statusText headers]]. simpl.
  destruct (requestData w !! id) as [snapshot|] eqn:Hsnap.
  - rewrite bool_decide_eq_true_2 by eauto. simpl. done.
  - rewrite bool_decide_eq_false_2 by (intros [? ?]; congruence). simpl.
    split_and!; [done..|]. apply map_eq. intros k.
    destruct (decide (k = id)) as [->|Hne].
    + by rewrite lookup_alter_eq, Hsnap.
    + by rewrite lookup_alter_ne.
Qed.

Lemma onEvent_returns env tabId ev w :
  outcome (onEvent env tabId ev w) = Returns tt.
Proof.
  rewrite onEvent_dispatch.
  destruct (attachedTabs w !! tabId) as [tabData|]; [|done].
  destruct ev as [params|params|method]; [| |done].
  - apply handleRequestPaused_run.
  - apply handleResponseReceived_run.
Qed.

Lemma onDetach_returns env tabId reason w :
  outcome (onDetach env tabId reason w) = Returns tt.
Proof.
  unfold onDetach. unfold_effects. unfold_monad. simpl.
  destruct (attachedTabs w !! tabId) as [tabData|]; simpl; destruct_world; done.
Qed.

Lemma onMessage_returns env c w :
  outcome (onMessage env c w) = Returns tt.
Proof.
  destruct (pendingRequests w !! exchange c) as [pending|] eqn:Hp.
  - apply (onMessage_run env c w pending Hp).
  - destruct (absent_is_noop env c w Hp) as [text ->]. done.
Qed.

(** X1. No operation of the worker lets an exception escape: whatever the
    ports and the transport do, every handler returns normally. *)
Theorem handlers_never_throw env op w :
  outcome (perform env op w) = Returns tt.
Proof.
  destruct op; simpl.
  - apply attachDebugger_returns.
  - apply detachDebugger_returns.
  - apply onMessage_returns.
  - apply onEvent_returns.
  - apply onDetach_returns.
Qed.

(** ** Attaching to a target that is not attached yet *)

Lemma first_rejection_cases env tabId :
  first_rejection env tabId
  = match transport env tabId (Attach "1.3") with
    | Some e => Some e
    | None =>
      match transport env tabId (SendCommand "Network.enable" NoParams) with
      | Some e => Some e
      | None => transport env tabId (SendCommand "Fetch.enable" (Patterns fetch_patterns))
      end
    end.
Proof.
  unfold first_rejection, attach_calls. simpl.
  destruct (transport env tabId (Attach "1.3")); simpl; [done|].
  destruct (transport env tabId (SendCommand "Network.enable" NoParams)); simpl; [done|].
  destruct (transport env tabId (SendCommand "Fetch.enable" (Patterns fetch_patterns)));
    simpl; done.
Qed.

(** X2. A fresh attach that the transport accepts and whose acknowledgment
    is delivered makes exactly the three transport calls (attach, enable the
    network domain, enable interception at both stages), registers the
    session of the target with the caller's port, posts the Attached
    acknowledgment and touches nothing else. *)
Theorem attach_fresh_registers env tabId port w :
  attachedTabs w !! tabId = None →
  first_rejection env tabId = None →
  ports env port = None →
  let r := attachDebugger env tabId port w in
  final r = with_attachedTabs (insert tabId (TabData.make port tabId)) w
  ∧ calls (trace r) = (fun c => (tabId, c)) <$> attach_calls
  ∧ posted (trace r) = [DEBUGGER_ATTACHED tabId].
Proof.
  intros Hfresh Hok Hport. rewrite first_rejection_cases in Hok.
  unfold attachDebugger. unfold_effects. unfold_monad. simpl.
  rewrite Hfresh. rewrite bool_decide_eq_false_2 by (intros [? ?]; congruence).
  simpl.
  destruct (transport env tabId (Attach "1.3")); [done|]. simpl.
  destruct (transport env tabId (SendCommand "Network.enable" NoParams)); [done|]. simpl.
  rewrite Hok. simpl. rewrite Hport. simpl. done.
Qed.

Lemma attach_fresh_registers_witness :
  let r := attachDebugger quiet 7 3%nat initial in
  (attachedTabs initial !! 7%Z = None
   ∧ first_rejection quiet 7 = None
   ∧ ports quiet 3%nat = None)
  ∧ attachedTabs (final r) !! 7%Z = Some (TabData.make 3 7)
  ∧ posted (trace r) = [DEBUGGER_ATTACHED 7].
Proof.
  intros r.
  assert (attachedTabs initial !! 7%Z = None) as Hfresh by reflexivity.
  assert (first_rejection quiet 7 = None) as Hok by reflexivity.
  split; [split_and!; [exact Hfresh|exact Hok|reflexivity]|].
  destruct (attach_fresh_registers quiet 7 3%nat initial Hfresh Hok eq_refl)
    as (Hfinal & _ & Hposted).
  split; [|exact Hposted].
  subst r. rewrite Hfinal. simpl. apply lookup_insert_eq.
Defined.




(** X4. When a fresh attach is accepted but posting the acknowledgment
    throws: if the error mentions a disconnected port, the session is
    rolled back (the registry is as before) and a detach is requested
    after the three calls; with any other error the session stays
    registered although no acknowledgment was delivered. *)
Theorem attach_acknowledgment_lost env tabId port w e :
  attachedTabs w !! tabId = None →
  first_rejection env tabId = None →
  ports env port = Some e →
  let r := attachDebugger env tabId port w in
  if mentions_disconnected e then
    attachedTabs (final r) = attachedTabs w
    ∧ calls (trace r) = ((fun c => (tabId, c)) <$> attach_calls) ++ [(tabId, Detach)]
  else
    final r = with_attachedTabs (insert tabId (TabData.make port tabId)) w
    ∧ calls (trace r) = (fun c => (tabId, c)) <$> attach_calls.
Proof.
  intros Hfresh Hok Hport. rewrite first_rejection_cases in Hok.
  unfold attachDebugger. unfold_effects. unfold_monad. simpl.
  rewrite Hfresh. rewrite bool_decide_eq_false_2 by (intros [? ?]; congruence).
  simpl.
  destruct (transport env tabId (Attach "1.3")); [done|]. simpl.
  destruct (transport env tabId (SendCommand "Network.enable" NoParams)); [done|]. simpl.
  rewrite Hok. simpl. rewrite Hport. simpl.
  destruct (mentions_disconnected e); simpl; [|done].
  destruct (transport env tabId Detach); simpl; rewrite ?Hport; simpl;
    (split; [|done]); rewrite delete_insert_eq; by apply delete_id.
Qed.

Lemma attach_acknowledgment_lost_witness :
  let r := attachDebugger hung_up 7 3%nat initial in
  (attachedTabs initial !! 7%Z = None
   ∧ first_rejection hung_up 7 = None
   ∧ ports hung_up 3%nat = Some port_error)
  ∧ mentions_disconnected port_error = true
  ∧ attachedTabs (final r) = attachedTabs initial
  ∧ calls (trace r) = ((fun c => (7%Z, c)) <$> attach_calls) ++ [(7%Z, Detach)].
Proof.
  intros r.
  assert (attachedTabs initial !! 7%Z = None) as Hfresh by reflexivity.
  assert (first_rejection hung_up 7 = None) as Hok by reflexivity.
  split; [split_and!; [exact Hfresh|exact Hok|reflexivity]|].
  split; [reflexivity|].
  exact (attach_acknowledgment_lost hung_up 7 3%nat initial port_error Hfresh Hok eq_refl).
Defined.

(** ** Detaching *)

(** X5. Detaching a target that has no session does nothing at all: no
    transport call, no console output, no change of the three maps (the
    paused exchanges of other targets are not cleared). *)
Theorem detach_unattached_is_silent env tabId w :
  attachedTabs w !! tabId = None →
  detachDebugger env tabId w = Run (Returns tt) w [].
Proof.
  intros Hfresh. unfold detachDebugger. unfold_effects. unfold_monad. simpl.
  rewrite Hfresh. rewrite bool_decide_eq_false_2 by (intros [? ?]; congruence).
  done.
Qed.

Lemma detach_unattached_is_silent_witness :
  let w := worker_with [(2%Z, TabData.make 0 2)] [(2%Z, paused_request (js "b"))] in
  attachedTabs w !! 1%Z = None
  ∧ detachDebugger refusing 1 w = Run (Returns tt) w [].
Proof.
  intros w.
  assert (attachedTabs w !! 1%Z = None) as Hfresh by (vm_compute; reflexivity).
  split; [exact Hfresh|exact (detach_unattached_is_silent refusing 1 w Hfresh)].
Defined.

(** X6. When the transport rejects the detach of an attached target, the
    session stays registered and nothing is cleared: the state is
    unchanged, and the only effects are the rejected call and one console
    error. *)
Theorem detach_rejected_keeps_session env tabId w e :
  is_Some (attachedTabs w !! tabId) →
  transport env tabId Detach = Some e →
  detachDebugger env tabId w
  = Run (Returns tt) w
        [Called tabId Detach; Logged error_level "Failed to detach debugger:"].
Proof.
  intros Htab Hrej. unfold detachDebugger. unfold_effects. unfold_monad. simpl.
  rewrite bool_decide_eq_true_2 by done. simpl. rewrite Hrej. done.
Qed.

Lemma detach_rejected_keeps_session_witness :
  let w := worker_with [(1%Z, TabData.make 0 1)] [(1%Z, paused_request (js "a"))] in
  (is_Some (attachedTabs w !! 1%Z) ∧ transport refusing 1 Detach = Some refusal)
  ∧ detachDebugger refusing 1 w
    = Run (Returns tt) w
          [Called 1 Detach; Logged error_level "Failed to detach debugger:"].
Proof.
  intros w.
  assert (is_Some (attachedTabs w !! 1%Z)) as Htab
    by (eexists; vm_compute; reflexivity).
  split; [split; [exact Htab|reflexivity]|].
  exact (detach_rejected_keeps_session refusing 1 w refusal Htab eq_refl).
Defined.

(** ** Pause events *)

(** X7. A pause event whose port has hung up costs the target its session
    but not the exchange: the registry loses the target, the exchange stays
    stored, and a later Block (which never consults the registry) still
    sends its [Fetch.failRequest] to that target and, once accepted, takes
    the exchange out of the store. *)
Theorem pause_on_hung_up_port_keeps_exchange env tabId params port w e :
  ports env port = Some e →
  mentions_disconnected e = true →
  let id := Paused.requestId params in
  let w1 := final (handleRequestPaused env tabId params (Some port) w) in
  attachedTabs w1 = delete tabId (attachedTabs w)
  ∧ pendingRequests w1 !! id = Some (Pending.make tabId params)
  ∧ ∀ env',
      let c := SendCommand "Fetch.failRequest" (Params (fail_command id)) in
      let r := blockRequest env' id w1 in
      calls (trace r) = [(tabId, c)]
      ∧ (transport env' tabId c = None →
         pendingRequests (final r) = delete id (pendingRequests w)).
Proof.
  intros Hport Hdis id w1.
  assert (attachedTabs w1 = delete tabId (attachedTabs w)) as Htabs.
  { subst w1. unfold handleRequestPaused. unfold_effects. unfold_monad. simpl.
    destruct (normalize_headers _) as [headersObj headersArray].
    destruct (truthy_number _); simpl; rewrite Hport; simpl; rewrite Hdis; simpl;
      (case_bool_decide as Htab; simpl; [done|]; symmetry; apply delete_id;
       destruct (attachedTabs w !! tabId) eqn:Hl; [|done];
       exfalso; apply Htab; eauto). }
  destruct (handleRequestPaused_run env tabId params (Some port) w)
    as (_ & _ & Hpending & _).
  fold w1 in Hpending.
  assert (pendingRequests w1 !! id = Some (Pending.make tabId params)) as Hstored.
  { rewrite Hpending. apply lookup_insert_eq. }
  split_and!; [done..|].
  intros env' c r.
  destruct (blockRequest_run env' id w1 _ Hstored) as (_ & _ & Hc & Hf).
  split; [exact Hc|]. intros Hok. subst r c. rewrite Hf. simpl in *.
  rewrite Hok. simpl. rewrite Hpending. apply delete_insert_eq.
Qed.

Lemma pause_on_hung_up_port_keeps_exchange_witness :
  let w := worker_with [(1%Z, TabData.make 0 1)] [] in
  let params := paused_request (js "a") in
  let w1 := final (handleRequestPaused hung_up 1 params (Some 0%nat) w) in
  (ports hung_up 0%nat = Some port_error ∧ mentions_disconnected port_error = true)
  ∧ attachedTabs w1 = delete 1%Z (attachedTabs w)
  ∧ pendingRequests w1 !! js "a" = Some (Pending.make 1 params).
Proof.
  intros w params w1.
  split; [split; reflexivity|].
  destruct (pause_on_hung_up_port_keeps_exchange hung_up 1 params 0%nat w port_error
              eq_refl eq_refl) as (Htabs & Hstored & _).
  split; [exact Htabs|exact Hstored].
Defined.

(** X8. The exchange id is the only key of the store: a later pause event
    with the id of a stored exchange replaces that exchange (target and
    captured parameters) instead of adding an entry, and the store is the
    same as if the earlier event had never been handled. *)
Theorem later_pause_replaces_exchange env1 env2 t1 t2 p1 p2 port1 port2 w :
  Paused.requestId p2 = Paused.requestId p1 →
  let w1 := final (handleRequestPaused env1 t1 p1 port1 w) in
  let w2 := final (handleRequestPaused env2 t2 p2 port2 w1) in
  pendingRequests w2 = pendingRequests (final (handleRequestPaused env2 t2 p2 port2 w))
  ∧ pendingRequests w2 !! Paused.requestId p1 = Some (Pending.make t2 p2)
  ∧ size (pendingRequests w2) = size (pendingRequests w1).
Proof.
  intros Hid w1 w2.
  destruct (handleRequestPaused_run env1 t1 p1 port1 w) as (_ & _ & H1 & _).
  destruct (handleRequestPaused_run env2 t2 p2 port2 w1) as (_ & _ & H2 & _).
  destruct (handleRequestPaused_run env2 t2 p2 port2 w) as (_ & _ & H3 & _).
  fold w1 in H1. fold w2 in H2. rewrite H2, H3, H1, Hid.
  split_and!.
  - apply insert_insert_eq.
  - apply lookup_insert_eq.
  - apply map_size_insert_Some. rewrite lookup_insert_eq. by eexists.
Qed.

Lemma later_pause_replaces_exchange_witness :
  let p1 := paused_request (js "a") in
  let p2 := paused_response (js "a") 200 in
  let w1 := final (handleRequestPaused quiet 1 p1 (Some 0%nat) initial) in
  let w2 := final (handleRequestPaused quiet 1 p2 (Some 0%nat) w1) in
  Paused.requestId p2 = Paused.requestId p1
  ∧ pendingRequests w2 !! js "a" = Some (Pending.make 1 p2)
  ∧ size (pendingRequests w2) = size (pendingRequests w1).
Proof.
  intros p1 p2 w1 w2.
  split; [reflexivity|].
  destruct (later_pause_replaces_exchange quiet quiet 1 1 p1 p2 (Some 0%nat) (Some 0%nat)
              initial eq_refl) as (_ & Hstored & Hsize).
  split; [exact Hstored|exact Hsize].
Defined.

(** X9. At the request stage the snapshot kept in [requestData] is the very
    message that is posted, with no response attached, and that message
    carries the request's url, method and body and the two header forms of
    the normalization; at the response stage [requestData] is not
    touched. *)
Theorem request_pause_keeps_what_it_posts env tabId params port w :
  let r := handleRequestPaused env tabId params (Some port) w in
  let request := Paused.request params in
  if truthy_number (Paused.responseStatusCode params)
  then requestData (final r) = requestData w
  else ∃ d,
    posted (trace r) = [REQUEST_INTERCEPTED d]
    ∧ requestData (final r)
      = <[Paused.requestId params := Snapshot.make d None]> (requestData w)
    ∧ (RequestIntercepted.headers d, RequestIntercepted.headersArray d)
      = normalize_headers (Request.headers request)
    ∧ RequestIntercepted.url d = Request.url request
    ∧ RequestIntercepted.method d = Request.method request
    ∧ RequestIntercepted.postData d = Request.postData request.
Proof.
  unfold handleRequestPaused. unfold_effects. unfold_monad. simpl.
  destruct (normalize_headers _) as [headersObj headersArray] eqn:Hn.
  destruct (truthy_number _); simpl; destruct_world; try done;
    (eexists; split_and!; reflexivity).
Qed.

(** X10. After an involuntary detach of a target, a late protocol event of
    that target is dropped: nothing is stored, nothing is posted, the
    state is unchanged. *)
Theorem events_after_detach_are_dropped env env' tabId reason ev w :
  let w1 := final (onDetach env tabId reason w) in
  onEvent env' tabId ev w1 = Run (Returns tt) w1 [].
Proof.
  intros w1.
  assert (attachedTabs w1 !! tabId = None) as Hgone.
  { subst w1. unfold onDetach, clear_exchanges. unfold_effects. unfold_monad. simpl.
    destruct (attachedTabs w !! tabId) as [tabData|] eqn:Htab; simpl.
    - destruct (ports env (TabData.port tabData)); simpl; apply lookup_delete_eq.
    - done. }
  rewrite onEvent_dispatch, Hgone. done.
Qed.

(** X11. Pause and resume compose to the identity on the store: when an
    exchange with a fresh id is paused and then continued as a request or
    blocked, and the transport accepts, exactly one resume call goes to the
    target the event came from and the paused-exchange store is again what
    it was before the pause. *)
Theorem pause_then_resume_restores_store env env' tabId params port c w :
  pendingRequests w !! Paused.requestId params = None →
  exchange c = Paused.requestId params →
  (∀ m, c ≠ CONTINUE_RESPONSE (Paused.requestId params) m) →
  (∀ call, transport env' tabId call = None) →
  let w1 := final (handleRequestPaused env tabId params port w) in
  let r := onMessage env' c w1 in
  pendingRequests (final r) = pendingRequests w
  ∧ ∃ call, calls (trace r) = [(tabId, call)] ∧ resumes (Paused.requestId params) call.
Proof.
  intros Hfresh Hid Hnot Hok w1 r.
  destruct (handleRequestPaused_run env tabId params port w) as (_ & _ & Hpending & _).
  fold w1 in Hpending.
  assert (pendingRequests w1 !! exchange c = Some (Pending.make tabId params)) as Hstored.
  { rewrite Hid, Hpending. apply lookup_insert_eq. }
  assert (delete (Paused.requestId params) (pendingRequests w1) = pendingRequests w)
    as Hback.
  { rewrite Hpending, delete_insert_eq. by apply delete_id. }
  subst r. destruct c as [id mods | id mods | id]; simpl in *; subst id.
  - destruct (continueRequest_run env' _ mods w1 _ Hstored) as (_ & _ & Hc & Hf).
    simpl in *. rewrite Hok in Hf. rewrite Hf. simpl. split; [done|].
    eexists. split; [exact Hc|]. eexists _, _. split_and!; [done| |by left].
    apply continue_command_fields.
  - by destruct (Hnot mods).
  - destruct (blockRequest_run env' _ w1 _ Hstored) as (_ & _ & Hc & Hf).
    simpl in *. rewrite Hok in Hf. rewrite Hf. simpl. split; [done|].
    eexists. split; [exact Hc|]. eexists _, _. split_and!; [done|done|by right; right].
Qed.

Lemma pause_then_resume_restores_store_witness :
  let params := paused_request (js "a") in
  let c := BLOCK_REQUEST (js "a") in
  let w1 := final (handleRequestPaused quiet 1 params (Some 0%nat) initial) in
  (pendingRequests initial !! Paused.requestId params = None
   ∧ exchange c = Paused.requestId params
   ∧ (∀ m, c ≠ CONTINUE_RESPONSE (Paused.requestId params) m)
   ∧ (∀ call, transport quiet 1 call = None))
  ∧ pendingRequests (final (onMessage quiet c w1)) = pendingRequests initial.
Proof.
  intros params c w1.
  assert (∀ m, c ≠ CONTINUE_RESPONSE (Paused.requestId params) m) as Hnot
    by (intros m; discriminate).
  split; [split_and!; [reflexivity|reflexivity|exact Hnot|reflexivity]|].
  exact (proj1 (pause_then_resume_restores_store quiet quiet 1 params (Some 0%nat) c
                  initial eq_refl eq_refl Hnot (fun _ => eq_refl))).
Defined.

(** ** Every entry stays filed under its own key *)

Lemma consistent_tabs f w :
  (∀ t d, f (attachedTabs w) !! t = Some d → TabData.target d = t) →
  consistent w → consistent (with_attachedTabs f w).
Proof. intros Hf (_ & Hp & Hd). by split_and!. Qed.

Lemma consistent_pending f w :
  (∀ id p, f (pendingRequests w) !! id = Some p →
     Paused.requestId (Pending.params p) = id) →
  consistent w → consistent (with_pendingRequests f w).
Proof. intros Hf (Ht & _ & Hd). by split_and!. Qed.

Lemma consistent_snapshots f w :
  (∀ id s, f (requestData w) !! id = Some s →
     RequestIntercepted.requestId (Snapshot.data s) = id) →
  consistent w → consistent (with_requestData f w).
Proof. intros Hf (Ht & Hp & _). by split_and!. Qed.

Lemma consistent_delete_tab t w :
  consistent w → consistent (with_attachedTabs (delete t) w).
Proof.
  intros Hw. apply consistent_tabs; [|done].
  intros t' d [_ Hl]%lookup_delete_Some. by apply Hw.
Qed.

Lemma consistent_insert_tab t port w :
  consistent w → consistent (with_attachedTabs (insert t (TabData.make port t)) w).
Proof.
  intros Hw. apply consistent_tabs; [|done].
  intros t' d [[<- <-]|[_ Hl]]%lookup_insert_Some; [done|by apply Hw].
Qed.

Lemma consistent_delete_exchange id w :
  consistent w → consistent (with_pendingRequests (delete id) w).
Proof.
  intros Hw. apply consistent_pending; [|done].
  intros id' p [_ Hl]%lookup_delete_Some. by apply Hw.
Qed.

Lemma consistent_insert_exchange tabId params w :
  consistent w →
  consistent (with_pendingRequests
                (insert (Paused.requestId params) (Pending.make tabId params)) w).
Proof.
  intros Hw. apply consistent_pending; [|done].
  intros id' p [[<- <-]|[_ Hl]]%lookup_insert_Some; [done|by apply Hw].
Qed.

Lemma consistent_insert_snapshot id d w :
  RequestIntercepted.requestId d = id →
  consistent w →
  consistent (with_requestData (insert id (Snapshot.make d None)) w).
Proof.
  intros Hid Hw. apply consistent_snapshots; [|done].
  intros id' s [[<- <-]|[_ Hl]]%lookup_insert_Some; [done|by apply Hw].
Qed.

Lemma consistent_clear w : consistent w → consistent (clear_exchanges w).
Proof.
  intros (Ht & _ & _). unfold clear_exchanges. split_and!; simpl; [done|..];
    intros ? ? Hl; simpl in Hl; by apply lookup_empty_Some in Hl.
Qed.

Lemma consistent_initial : consistent initial.
Proof.
  split_and!; intros ? ? Hl; unfold initial in Hl; simpl in Hl;
    by apply lookup_empty_Some in Hl.
Qed.

Lemma attachDebugger_consistent env tabId port w :
  consistent w → consistent (final (attachDebugger env tabId port w)).
Proof.
  intros Hw. unfold attachDebugger. unfold_effects. unfold_monad. simpl.
  destruct_world;
    eauto using consistent_delete_tab, consistent_insert_tab.
Qed.

Lemma detachDebugger_consistent env tabId w :
  consistent w → consistent (final (detachDebugger env tabId w)).
Proof.
  intros Hw. unfold detachDebugger. unfold_effects. unfold_monad. simpl.
  destruct_world; eauto using consistent_delete_tab, consistent_clear.
Qed.

Lemma onDetach_consistent env tabId reason w :
  consistent w → consistent (final (onDetach env tabId reason w)).
Proof.
  intros Hw. unfold onDetach. unfold_effects. unfold_monad. simpl.
  destruct (attachedTabs w !! tabId) as [tabData|]; simpl; destruct_world;
    eauto using consistent_delete_tab, consistent_clear.
Qed.

Lemma handleRequestPaused_consistent env tabId params port w :
  consistent w → consistent (final (handleRequestPaused env tabId params port w)).
Proof.
  intros Hw. unfold handleRequestPaused. unfold_effects. unfold_monad. simpl.
  destruct port as [port|]; simpl; [|by apply consistent_insert_exchange].
  destruct (normalize_headers _) as [headersObj headersArray].
  destruct (truthy_number _); simpl; destruct_world;
    eauto 6 using consistent_delete_tab, consistent_insert_exchange,
      consistent_insert_snapshot.
Qed.

Lemma handleResponseReceived_consistent tabId params port w :
  consistent w → consistent (final (handleResponseReceived tabId params port w)).
Proof.
  intros Hw.
  destruct (handleResponseReceived_run tabId params port w) as (_ & _ & Ht & Hp & Hd).
  destruct Hw as (Hwt & Hwp & Hwd). split_and!.
  - by rewrite Ht.
  - by rewrite Hp.
  - rewrite Hd. intros id s Hl.
    apply lookup_alter_Some in Hl as [(<- & s' & Hl & ->)|[_ Hl]]; [|by apply Hwd].
    simpl. by apply Hwd.
Qed.

(** X12. Every operation of the worker keeps each entry filed under its own
    key: a session under the target it names, a paused exchange under the
    exchange id of its captured parameters, a request snapshot under the
    exchange id of its message. *)
Theorem operations_keep_entries_under_their_keys env op w :
  consistent w → consistent (final (perform env op w)).
Proof.
  intros Hw.
  destruct op as [tabId port | tabId | c | tabId ev | tabId reason]; simpl.
  - by apply attachDebugger_consistent.
  - by apply detachDebugger_consistent.
  - destruct (resume_removes_after_dispatch env c w)
      as [(_ & _ & _ & _ & _ & _ & -> & _) | [-> _]];
      [by apply consistent_delete_exchange|done].
  - rewrite onEvent_dispatch.
    destruct (attachedTabs w !! tabId) as [tabData|]; [|done].
    destruct ev as [params|params|method]; [| |done].
    + by apply handleRequestPaused_consistent.
    + by apply handleResponseReceived_consistent.
  - by apply onDetach_consistent.
Qed.

(** The worker starts consistent and stays so after a pause event. *)
Lemma operations_keep_entries_under_their_keys_witness :
  let w := final (perform quiet (ATTACH_DEBUGGER 1 0%nat) initial) in
  let op := PROTOCOL_EVENT 1 (Fetch_requestPaused (paused_request (js "a"))) in
  consistent initial
  ∧ consistent w
  ∧ consistent (final (perform quiet op w)).
Proof.
  intros w op.
  pose proof (operations_keep_entries_under_their_keys quiet
                (ATTACH_DEBUGGER 1 0%nat) initial consistent_initial) as Hw.
  split; [exact consistent_initial|]. split; [exact Hw|].
  exact (operations_keep_entries_under_their_keys quiet op w Hw).
Defined.

(** ** Fetching a response body *)

Ltac unfold_body :=
  unfold getResponseBody, post_result, sendB, postB, accessor,
    bindB, catchB, retB, throwB, logB in *.

Ltac destruct_body_world :=
  repeat match goal with
  | |- context [transport ?e ?t ?c] => destruct (transport e t c); simpl
  | |- context [ports ?e ?p] => destruct (ports e p); simpl
  | |- context [mentions_disconnected ?e] => destruct (mentions_disconnected e); simpl
  | |- context [message ?e] => destruct (message e); simpl
  | |- context [includes ?p ?m] => destruct (includes p m); simpl
  end.

(** X13. [getResponseBody] never lets an exception escape, whatever the
    transport and the port do, with or without a port. *)
Theorem body_fetch_never_throws env bodies tabId requestId port :
  (getResponseBody env bodies tabId requestId port).1 = Returns tt.
Proof.
  unfold_body. destruct port as [port|]; simpl; [|done].
  destruct_body_world; done.
Qed.

(** X14. With a port that delivers, [getResponseBody] posts exactly one
    ResponseBody message for the exchange.  It asks the interception-stage
    accessor first and posts its result if the transport accepts; only
    otherwise it asks the network-domain accessor and posts that result;
    when both are rejected it posts the not-available sentinel (empty
    body, not base64).  No further call is made. *)
Theorem body_fetch_falls_back_in_order env bodies tabId requestId port :
  ports env port = None →
  let r := getResponseBody env bodies tabId requestId (Some port) in
  let fetch := accessor "Fetch.getResponseBody" requestId in
  let network := accessor "Network.getResponseBody" requestId in
  let message_of (b : ResponseBody.result) :=
    ResponseBody.make requestId (ResponseBody.result_body b)
      (ResponseBody.result_base64Encoded b) false in
  match transport env tabId fetch, transport env tabId network with
  | None, _ =>
    body_calls r.2 = [(tabId, fetch)]
    ∧ body_posted r.2 = [message_of (bodies tabId fetch)]
  | Some _, None =>
    body_calls r.2 = [(tabId, fetch); (tabId, network)]
    ∧ body_posted r.2 = [message_of (bodies tabId network)]
  | Some _, Some _ =>
    body_calls r.2 = [(tabId, fetch); (tabId, network)]
    ∧ body_posted r.2 = [ResponseBody.make requestId [] false true]
  end.
Proof.
  intros Hport. unfold_body. simpl.
  destruct (transport env tabId
              (SendCommand "Fetch.getResponseBody" (Params (Command.of_id requestId))));
    simpl; rewrite ?Hport; simpl.
  - destruct (transport env tabId
                (SendCommand "Network.getResponseBody" (Params (Command.of_id requestId))));
      simpl; rewrite ?Hport; simpl; done.
  - done.
Qed.

Lemma body_fetch_falls_back_in_order_witness :
  let bodies := fun (_ : Z) (_ : call) => ResponseBody.make_result (js "aGk=") true in
  let r := getResponseBody refusing bodies 1 (js "a") (Some 0%nat) in
  ports refusing 0%nat = None
  ∧ body_calls r.2 = [(1%Z, accessor "Fetch.getResponseBody" (js "a"));
                      (1%Z, accessor "Network.getResponseBody" (js "a"))]
  ∧ body_posted r.2 = [ResponseBody.make (js "a") [] false true].
Proof.
  intros bodies r.
  split; [reflexivity|].
  exact (body_fetch_falls_back_in_order refusing bodies 1 (js "a") 0%nat eq_refl).
Defined.

(** X15. A port error that does not mention a disconnected port is taken
    for a failure of the accessor: although the interception-stage accessor
    succeeded, the network-domain accessor is called as well, and the
    message is attempted three times (both results, then the
    not-available sentinel). *)
Theorem body_fetch_port_error_triggers_fallback env bodies tabId requestId port e :
  ports env port = Some e →
  mentions_disconnected e = false →
  let r := getResponseBody env bodies tabId requestId (Some port) in
  let fetch := accessor "Fetch.getResponseBody" requestId in
  let network := accessor "Network.getResponseBody" requestId in
  let message_of (b : ResponseBody.result) :=
    ResponseBody.make requestId (ResponseBody.result_body b)
      (ResponseBody.result_base64Encoded b) false in
  transport env tabId fetch = None →
  transport env tabId network = None →
  body_calls r.2 = [(tabId, fetch); (tabId, network)]
  ∧ body_posted r.2 = [message_of (bodies tabId fetch);
                       message_of (bodies tabId network);
                       ResponseBody.make requestId [] false true].
Proof.
  intros Hport Hdis r fetch network message_of Hfetch Hnetwork.
  subst r fetch network message_of. unfold_body. simpl.
  rewrite Hfetch, Hnetwork, Hport. simpl. rewrite Hdis. simpl.
  destruct (message e); simpl; [destruct (negb _); simpl|]; done.
Qed.

Lemma body_fetch_port_error_triggers_fallback_witness :
  let broken : environment :=
    {| ports := fun _ => Some refusal; transport := fun _ _ => None; now := 0 |} in
  let bodies := fun (_ : Z) (_ : call) => ResponseBody.make_result (js "hi") false in
  let r := getResponseBody broken bodies 1 (js "a") (Some 0%nat) in
  (ports broken 0%nat = Some refusal ∧ mentions_disconnected refusal = false)
  ∧ body_calls r.2 = [(1%Z, accessor "Fetch.getResponseBody" (js "a"));
                      (1%Z, accessor "Network.getResponseBody" (js "a"))].
Proof.
  intros broken bodies r.
  split; [split; reflexivity|].
  exact (proj1 (body_fetch_port_error_triggers_fallback broken bodies 1 (js "a") 0%nat
                  refusal eq_refl eq_refl eq_refl eq_refl)).
Defined.

(** ** The built-ins behind the body encoding *)

Section Encoding.
Local Open Scope N_scope.

Lemma escape_at_two a b rest :
  a ≠ 117 →
  escape_at (a :: b :: rest)
  = match hex_number 0 [a; b] with Some v => Some (v, 2%nat) | None => None end.
Proof.
  intros Ha. unfold escape_at.
  destruct a as [|p]; [reflexivity|].
  do 7 (try (destruct p as [p|p|]; try reflexivity)).
  all: try (destruct rest as [|? [|? [|? ?]]]; try reflexivity).
  done.
Qed.

Lemma hex_digit_range d : d < 16 → 48 ≤ hex_digit d ≤ 70.
Proof.
  intros Hd. unfold hex_digit.
  destruct (d <? 10) eqn:H10; [apply N.ltb_lt in H10|apply N.ltb_ge in H10]; lia.
Qed.

Lemma hex_value_digit d : d < 16 → hex_value (hex_digit d) = Some d.
Proof.
  intros Hd. unfold hex_value, hex_digit, in_range.
  destruct (d <? 10) eqn:H10; [apply N.ltb_lt in H10|apply N.ltb_ge in H10].
  - replace (48 <=? 48 + d) with true by (symmetry; apply N.leb_le; lia).
    replace (48 + d <=? 57) with true by (symmetry; apply N.leb_le; lia).
    simpl. f_equal. lia.
  - replace (55 + d <=? 57) with false by (symmetry; apply N.leb_gt; lia).
    rewrite andb_false_r.
    replace (65 <=? 55 + d) with true by (symmetry; apply N.leb_le; lia).
    replace (55 + d <=? 70) with true by (symmetry; apply N.leb_le; lia).
    simpl. f_equal. lia.
Qed.

Lemma unescape_percent o rest :
  o < 256 → unescape_from 0 (percent o ++ rest) = o :: unescape_from 0 rest.
Proof.
  intros Ho. unfold percent.
  assert (o / 16 < 16) as Hhi by (apply N.Div0.div_lt_upper_bound; lia).
  assert (o mod 16 < 16) as Hlo by (apply N.mod_upper_bound; lia).
  change (unescape_from 0 ([37; hex_digit (o / 16); hex_digit (o mod 16)] ++ rest))
    with (match escape_at (hex_digit (o / 16) :: hex_digit (o mod 16) :: rest) with
          | Some (v, n) =>
            v :: unescape_from n (hex_digit (o / 16) :: hex_digit (o mod 16) :: rest)
          | None =>
            37 :: unescape_from 0 (hex_digit (o / 16) :: hex_digit (o mod 16) :: rest)
          end).
  rewrite escape_at_two by (pose proof (hex_digit_range _ Hhi); lia).
  unfold hex_number. rewrite (hex_value_digit _ Hhi). simpl.
  rewrite (hex_value_digit _ Hlo). simpl.
  f_equal. pose proof (N.div_mod o 16). lia.
Qed.

Lemma unescape_percent_bytes bs rest :
  Forall (fun b => b < 256) bs →
  unescape_from 0 ((bs ≫= percent) ++ rest) = bs ++ unescape_from 0 rest.
Proof.
  induction 1 as [|b bs Hb _ IH]; [done|].
  change ((b :: bs) ≫= percent) with (percent b ++ (bs ≫= percent)).
  rewrite <- app_assoc, unescape_percent by done. simpl. by rewrite IH.
Qed.

Lemma log2_byte a : a < 256 → N.log2 a < 8.
Proof.
  intros Ha. destruct (N.eq_dec a 0) as [->|Hne]; [simpl; lia|].
  apply (proj1 (N.log2_lt_pow2 a 8 ltac:(lia))). simpl. lia.
Qed.

Lemma lor_byte a b : a < 256 → b < 256 → N.lor a b < 256.
Proof.
  intros Ha Hb. destruct (N.eq_dec (N.lor a b) 0) as [->|Hne]; [lia|].
  change 256 with (2 ^ 8). apply N.log2_lt_pow2; [lia|].
  rewrite N.log2_lor. apply N.max_lub_lt; by apply log2_byte.
Qed.

Lemma land_63 x : N.land x 63 < 64.
Proof.
  change 63 with (N.ones 6). rewrite N.land_ones.
  apply N.mod_upper_bound. simpl. lia.
Qed.

Lemma shiftr_bound x n k : x < k * 2 ^ n → N.shiftr x n < k.
Proof.
  intros Hx. rewrite N.shiftr_div_pow2.
  apply N.Div0.div_lt_upper_bound. lia.
Qed.

Lemma utf8_bytes cp : cp < 2097152 → Forall (fun b => b < 256) (utf8 cp).
Proof.
  intros Hcp. unfold utf8.
  destruct (cp <? 128) eqn:H1; [apply N.ltb_lt in H1|apply N.ltb_ge in H1].
  { repeat constructor. lia. }
  destruct (cp <? 2048) eqn:H2; [apply N.ltb_lt in H2|apply N.ltb_ge in H2].
  { repeat constructor; apply lor_byte; try lia.
    - assert (N.shiftr cp 6 < 32) by (apply shiftr_bound; simpl; lia). lia.
    - pose proof (land_63 cp). lia. }
  destruct (cp <? 65536) eqn:H3; [apply N.ltb_lt in H3|apply N.ltb_ge in H3].
  { repeat constructor; apply lor_byte; try lia.
    - assert (N.shiftr cp 12 < 16) by (apply shiftr_bound; simpl; lia). lia.
    - pose proof (land_63 (N.shiftr cp 6)). lia.
    - pose proof (land_63 cp). lia. }
  repeat constructor; apply lor_byte; try lia.
  - assert (N.shiftr cp 18 < 8) by (apply shiftr_bound; simpl; lia). lia.
  - pose proof (land_63 (N.shiftr cp 12)). lia.
  - pose proof (land_63 (N.shiftr cp 6)). lia.
  - pose proof (land_63 cp). lia.
Qed.


Lemma is_unreserved_ascii c : is_unreserved c = true → c < 128 ∧ c ≠ 37.
Proof.
  unfold is_unreserved, is_alnum, in_range.
  rewrite !orb_true_iff, !andb_true_iff, !N.leb_le, !N.eqb_eq. lia.
Qed.

Lemma not_surrogate c :
  c < 55296 → is_low_surrogate c = false ∧ is_high_surrogate c = false.
Proof.
  intros Hc. unfold is_low_surrogate, is_high_surrogate, in_range.
  split; apply andb_false_iff; left; apply N.leb_gt; lia.
Qed.

Lemma encode_ascii s :
  ascii_string s →
  ∃ e, encodeURIComponent s = Some e ∧ unescape e = s.
Proof.
  unfold unescape. induction 1 as [|c t Hc _ (e & He & Hu)]; [by exists []|].
  simpl. rewrite He. simpl. destruct (is_unreserved c) eqn:Hun.
  - eexists. split; [done|]. simpl.
    destruct (is_unreserved_ascii c Hun) as [_ Hne].
    apply N.eqb_neq in Hne. rewrite Hne. by rewrite Hu.
  - destruct (not_surrogate c ltac:(lia)) as [-> ->].
    eexists. split; [done|].
    unfold percent_utf8, utf8.
    replace (c <? 128) with true by (symmetry; apply N.ltb_lt; lia).
    rewrite unescape_percent_bytes by (repeat constructor; lia).
    simpl. by rewrite Hu.
Qed.

Lemma unescape_encoded_bytes n : ∀ s e,
  (length s ≤ n)%nat →
  well_formed_string s →
  encodeURIComponent s = Some e →
  Forall (fun b => b < 256) (unescape e).
Proof.
  unfold unescape.
  induction n as [|n IH]; intros s e Hlen Hwf.
  { destruct s; [|simpl in Hlen; lia]. intros [= <-]. constructor. }
  destruct s as [|c t]; [intros [= <-]; constructor|].
  apply Forall_cons in Hwf as [Hc Hwf]. simpl in Hlen. simpl.
  destruct (is_unreserved c) eqn:Hun.
  - destruct (encodeURIComponent t) as [e'|] eqn:He; [|done]. intros [= <-].
    destruct (is_unreserved_ascii c Hun) as [H128 Hne].
    apply N.eqb_neq in Hne. simpl. rewrite Hne.
    constructor; [lia|]. apply (IH t); [lia|done..].
  - destruct (is_low_surrogate c) eqn:Hlow; [done|].
    destruct (is_high_surrogate c) eqn:Hhigh.
    + destruct t as [|d t']; [done|].
      destruct (is_low_surrogate d) eqn:Hd; [|done].
      apply Forall_cons in Hwf as [_ Hwf]. simpl in Hlen.
      destruct (encodeURIComponent t') as [e'|] eqn:He; [|done]. intros [= <-].
      unfold is_high_surrogate, is_low_surrogate, in_range in Hhigh, Hd.
      apply andb_prop in Hhigh as [H1 H2], Hd as [H3 H4].
      apply N.leb_le in H1, H2, H3, H4.
      unfold percent_utf8.
      rewrite unescape_percent_bytes by (apply utf8_bytes; lia).
      apply Forall_app. split; [apply utf8_bytes; lia|].
      apply (IH t'); [lia|done..].
    + destruct (encodeURIComponent t) as [e'|] eqn:He; [|done]. intros [= <-].
      unfold percent_utf8.
      rewrite unescape_percent_bytes by (apply utf8_bytes; lia).
      apply Forall_app. split; [apply utf8_bytes; lia|].
      apply (IH t); [lia|done..].
Qed.

Lemma btoa_bytes s : Forall (fun b => b < 256) s → btoa s = Some (base64 s).
Proof.
  intros Hs. unfold btoa.
  replace (forallb (fun c => c <=? 255) s) with true; [done|].
  symmetry. apply forallb_forall. intros c Hin.
  rewrite Forall_forall in Hs. apply N.leb_le.
  apply list_elem_of_In in Hin. specialize (Hs c Hin). lia.
Qed.

End Encoding.

(** ** The two body encodings *)

(** X16. On a body of ASCII characters only, the UTF-8 path does not throw,
    so the fallback to the direct encoding is not entered, and both
    encodings give the same base64 text. *)
Theorem ascii_body_needs_no_fallback s w :
  ascii_string s →
  btoa_utf8 s w = Run (Returns (base64 s)) w []
  ∧ btoa_direct s w = Run (Returns (base64 s)) w [].
Proof.
  intros Hs. destruct (encode_ascii s Hs) as (e & He & Hu).
  assert (btoa s = Some (base64 s)) as Hb.
  { apply btoa_bytes. eapply Forall_impl; [exact Hs|]. simpl. intros c Hc.
    apply N.lt_trans with 128%N; [done|reflexivity]. }
  unfold btoa_utf8, btoa_direct. unfold_monad.
  rewrite He. simpl. rewrite Hu, Hb. done.
Qed.

Lemma ascii_body_needs_no_fallback_witness :
  ascii_string (js "hello")
  ∧ btoa_utf8 (js "hello") initial = Run (Returns (js "aGVsbG8=")) initial []
  ∧ btoa_direct (js "hello") initial = Run (Returns (js "aGVsbG8=")) initial [].
Proof.
  assert (ascii_string (js "hello")) as Hs by (repeat constructor).
  split; [exact Hs|].
  exact (ascii_body_needs_no_fallback (js "hello") initial Hs).
Defined.

(** X17. On a string of 16-bit code units the UTF-8 path throws only where
    [encodeURIComponent] does (an unpaired surrogate), and then the direct
    encoding throws as well: the fallback of the two resume commands never
    yields a body that the UTF-8 path could not. *)
Theorem direct_encoding_never_rescues s w e :
  well_formed_string s →
  outcome (btoa_utf8 s w) = Throws e →
  encodeURIComponent s = None
  ∧ btoa_direct s w = Run (Throws InvalidCharacterError) w [].
Proof.
  intros Hwf. unfold btoa_utf8, btoa_direct. unfold_monad.
  destruct (encodeURIComponent s) as [enc|] eqn:He; simpl.
  - rewrite btoa_bytes by (by eapply unescape_encoded_bytes). done.
  - intros _. split; [done|]. by rewrite (uri_error_btoa_error s He).
Qed.

Lemma direct_encoding_never_rescues_witness :
  (well_formed_string lone_surrogate
   ∧ outcome (btoa_utf8 lone_surrogate initial) = Throws URIError)
  ∧ encodeURIComponent lone_surrogate = None
  ∧ btoa_direct lone_surrogate initial = Run (Throws InvalidCharacterError) initial [].
Proof.
  assert (well_formed_string lone_surrogate) as Hwf
    by (repeat constructor).
  split; [split; [exact Hwf|reflexivity]|].
  exact (direct_encoding_never_rescues lone_surrogate initial URIError Hwf eq_refl).
Defined.

(** ** Headers of a continue-request command *)

Lemma filter_keep_header_idempotent (l : header_array) :
  List.filter keep_header (List.filter keep_header l) = List.filter keep_header l.
Proof.
  induction l as [|h l IH]; [done|]. simpl.
  destruct (keep_header h) eqn:Hk; [|done]. simpl. by rewrite Hk, IH.
Qed.

(** X18. Whatever shape the patch gives its headers, every element that
    [continueRequest] puts into the command is an entry object with a
    defined name and a defined value.  From an array the kept entries are
    the original ones, in order, and filtering what was already filtered
    changes nothing. *)
Theorem continue_headers_are_entries (h : jsheaders) :
  Forall (fun x => ∃ n v, x = Some (Header.make (Some n) (Some v)))
         (request_headers h)
  ∧ ∀ l, h = HeadersArray l →
      request_headers h `sublist_of` l
      ∧ request_headers (HeadersArray (request_headers h)) = request_headers h.
Proof.
  split.
  - destruct h as [l|o|]; simpl; [| |constructor].
    + induction l as [|x l IH]; [constructor|]. simpl.
      destruct (keep_header x) eqn:Hk; [|done]. constructor; [|done].
      destruct x as [[[n|] [v|]]|]; simpl in Hk; try done; eauto.
      by rewrite andb_false_r in Hk.
    + unfold entries_to_array. apply Forall_bind, Forall_forall.
      intros [[|c n] [v|]] _; repeat constructor. unfold Header.entry. eauto.
  - intros l ->. simpl. split; [|apply filter_keep_header_idempotent].
    induction l as [|x l IH]; [done|]. simpl.
    destruct (keep_header x); [by apply sublist_skip|by apply sublist_cons].
Qed.

(** ** The mapping built from a header array *)

Lemma object_of_array_step (l : header_array) (L : header_array) : ∀ acc,
  (∀ x, x ∈ l → x ∈ L) →
  (∀ k v, acc !! k = Some v →
     k ≠ [] ∧ k ≠ js "__proto__"
     ∧ ∃ x, v = Some x ∧ Some (Header.make (Some k) (Some x)) ∈ L) →
  ∀ k v,
    foldl (fun o h =>
             if well_formed_entry h then
               match h with
               | Some {| Header.name := Some n; Header.value := v |} => assign n v o
               | _ => o
               end
             else o) acc l !! k = Some v →
    k ≠ [] ∧ k ≠ js "__proto__"
    ∧ ∃ x, v = Some x ∧ Some (Header.make (Some k) (Some x)) ∈ L.
Proof.
  induction l as [|h l IH]; intros acc Hsub Hacc k v; simpl; [by apply Hacc|].
  apply IH; [intros x Hx; apply Hsub; by right|].
  assert (h ∈ L) as HL by (apply Hsub; by left).
  destruct h as [[[n|] [x|]]|]; simpl; try done.
  - destruct n as [|c n]; simpl; [done|].
    unfold assign. case_decide as Hproto; [done|].
    intros k' v' [[<- <-]|[_ Hl]]%lookup_insert_Some; [|by apply Hacc].
    split_and!; [done|done|eauto].
  - destruct n as [|c n]; simpl; done.
Qed.

(** X19. The mapping that the request-stage normalization builds from a
    header array has no binding that the array does not justify: every
    name in it is non-empty and not [__proto__], every value is defined,
    and the pair is a well-formed entry of the array.  When a name occurs
    more than once the last entry wins. *)
Theorem normalized_mapping_comes_from_entries (l : header_array) :
  (∀ k v, (normalize_headers (Some (HeadersArray l))).1 !! k = Some v →
     k ≠ [] ∧ k ≠ js "__proto__"
     ∧ ∃ x, v = Some x ∧ Some (Header.make (Some k) (Some x)) ∈ l)
  ∧ (∀ n x, n ≠ [] → n ≠ js "__proto__" →
       (normalize_headers (Some (HeadersArray (l ++ [Some (Header.entry n x)])))).1 !! n
       = Some (Some x)).
Proof.
  split.
  - simpl. unfold object_of_array. apply object_of_array_step; [done|].
    intros k v Hl. by apply lookup_empty_Some in Hl.
  - intros n x Hn Hproto. simpl. unfold object_of_array.
    rewrite foldl_app. simpl. destruct n as [|c n]; [done|]. simpl.
    unfold assign. rewrite decide_False by done. apply lookup_insert_eq.
Qed.

(** ** Overrides of a fulfill command *)

(** X20. In a fulfill command a patch overrides the captured values field
    by field: a non-zero [responseCode] replaces the captured status while
    0 is ignored, and a [responseHeaders] list replaces the captured
    headers even when it is empty; a body is sent base64-encoded.  The
    command is dispatched, once, whenever the body (if any) can be
    encoded. *)
Theorem fulfill_patch_overrides env id patch w pending :
  pendingRequests w !! id = Some pending →
  (∀ body, ResponsePatch.body patch = Some body → is_Some (encode_body body)) →
  let params := Pending.params pending in
  ∃ c,
    commands (trace (continueResponse env id (Some patch) w))
    = [(Pending.tabId pending, "Fetch.fulfillRequest"%string, c)]
    ∧ (∀ code, ResponsePatch.responseCode patch = Some code → code ≠ 0%Z →
         Command.responseCode c = Some code)
    ∧ (ResponsePatch.responseCode patch = Some 0%Z →
         Command.responseCode c
         = Some (if truthy_number (Paused.responseStatusCode params)
                 then default 0%Z (Paused.responseStatusCode params)
                 else 200%Z))
    ∧ (∀ h, ResponsePatch.responseHeaders patch = Some h →
         Command.responseHeaders c = Some h)
    ∧ Command.body c = ResponsePatch.body patch ≫= encode_body.
Proof.
  intros Hp Henc params. subst params.
  destruct (continueResponse_run env id (Some patch) w pending Hp) as (_ & _ & H).
  destruct (fulfill_command id (Pending.params pending) (Some patch)) as [c|] eqn:Hcmd.
  - destruct H as [Hc _]. apply commands_of_calls in Hc.
    destruct (fulfill_command_fields _ _ _ _ Hcmd) as (_ & Hcode & Hheaders & Hbody).
    simpl in Hcode, Hheaders, Hbody.
    exists c. split_and!; [done| | | |done].
    + intros code Hpc Hne. rewrite Hcode, Hpc. simpl.
      destruct (code =? 0)%Z eqn:Hz; [apply Z.eqb_eq in Hz; done|done].
    + intros Hpc. rewrite Hcode, Hpc. done.
    + intros h Hph. rewrite Hheaders, Hph. done.
  - apply fulfill_command_None in Hcmd as (body & Hbody & Hnone).
    simpl in Hbody. destruct (Henc body Hbody) as [b Hb]. congruence.
Qed.

Lemma fulfill_patch_overrides_witness :
  let params := paused_response (js "r2") 200 in
  let w := worker_with [] [(1%Z, params)] in
  let patch := ResponsePatch.make (Some 404%Z) (Some []) None in
  (pendingRequests w !! js "r2" = Some (Pending.make 1 params)
   ∧ ∀ body, ResponsePatch.body patch = Some body → is_Some (encode_body body))
  ∧ ∃ c, commands (trace (continueResponse quiet (js "r2") (Some patch) w))
         = [(1%Z, "Fetch.fulfillRequest"%string, c)]
       ∧ Command.responseCode c = Some 404%Z
       ∧ Command.responseHeaders c = Some [].
Proof.
  intros params w patch.
  assert (pendingRequests w !! js "r2" = Some (Pending.make 1 params)) as Hp
    by (vm_compute; reflexivity).
  assert (∀ body, ResponsePatch.body patch = Some body → is_Some (encode_body body))
    as Henc by (intros body [=]).
  split; [split; [exact Hp|exact Henc]|].
  destruct (fulfill_patch_overrides quiet (js "r2") patch w _ Hp Henc)
    as (c & Hc & Hcode & _ & Hheaders & _).
  exists c. split; [exact Hc|].
  split; [apply (Hcode 404%Z); [reflexivity|discriminate]|apply (Hheaders []); reflexivity].
Defined.

(** ** Routing *)



(** X22. Passing a response through: after a pause event that carries a
    non-zero status code, a ContinueResponse without patch sends one
    [Fetch.fulfillRequest] to the target of the event, with the status
    code and the header list of the event (the empty list if it had none)
    and without a body. *)
Theorem paused_response_passes_through env env' tabId params port s w :
  Paused.responseStatusCode params = Some s →
  s ≠ 0%Z →
  let id := Paused.requestId params in
  let w1 := final (handleRequestPaused env tabId params port w) in
  ∃ c,
    commands (trace (continueResponse env' id None w1))
    = [(tabId, "Fetch.fulfillRequest"%string, c)]
    ∧ Command.requestId c = id
    ∧ Command.responseCode c = Some s
    ∧ Command.responseHeaders c = Some (default [] (Paused.responseHeaders params))
    ∧ Command.body c = None.
Proof.
  intros Hs Hne id w1.
  destruct (handleRequestPaused_run env tabId params port w) as (_ & _ & Hpending & _).
  fold w1 in Hpending.
  assert (pendingRequests w1 !! id = Some (Pending.make tabId params)) as Hstored.
  { rewrite Hpending. apply lookup_insert_eq. }
  destruct (continueResponse_run env' id None w1 _ Hstored) as (_ & _ & H).
  simpl in H. destruct H as [Hc _]. apply commands_of_calls in Hc.
  eexists. split; [exact Hc|]. simpl. rewrite Hs. simpl.
  destruct (s =? 0)%Z eqn:Hz; [apply Z.eqb_eq in Hz; done|]. done.
Qed.

Lemma paused_response_passes_through_witness :
  let params := paused_response (js "r2") 200 in
  let w1 := final (handleRequestPaused quiet 1 params (Some 0%nat) initial) in
  (Paused.responseStatusCode params = Some 200%Z ∧ 200%Z ≠ 0%Z)
  ∧ ∃ c,
      commands (trace (continueResponse quiet (js "r2") None w1))
      = [(1%Z, "Fetch.fulfillRequest"%string, c)]
      ∧ Command.responseCode c = Some 200%Z
      ∧ Command.responseHeaders c = Some header_X_Y.
Proof.
  intros params w1.
  assert (200%Z ≠ 0%Z) as Hne by discriminate.
  split; [split; [reflexivity|exact Hne]|].
  destruct (paused_response_passes_through quiet quiet 1 params (Some 0%nat) 200 initial
              eq_refl Hne) as (c & Hc & _ & Hcode & Hheaders & _).
  exists c. split; [exact Hc|]. split; [exact Hcode|exact Hheaders].
Defined.
